(** * gregory_monitor: a shallow embedding of [gregory.py]

    The program polls one web page, looks for promotional keywords in its
    text and sends a rate-limited e-mail.  The embedding follows the source
    function by function:

    - [Config], [validate], [from_env]            (class [Config])
    - [GregoryMonitor], [check_discount], [send_email], [run]
                                                  (class [GregoryMonitor])
    - [main]

    What the libraries do ([requests], [smtplib], [time], the HTML parser)
    is not part of the source.  Each call to them is an event of the trace
    and its result is read from the environment: a call either returns or
    raises.  The HTML parser is a function parameter; what the source does
    with the parsed tree (dropping three kinds of subtree, collecting the
    text, lower-casing, the substring test) is embedded in full.

    Readings of [time.time()] are integers (seconds); the loop only
    subtracts and compares them.  [time.sleep] is given its refusal of a
    negative length, since that is the one exception the body of the loop
    can meet outside [check_discount] and [send_email]. *)

From Stdlib Require Import ZArith String Ascii.
From stdpp Require Import gmap strings list.

Open Scope string_scope.
Open Scope Z_scope.
Open Scope list_scope.

(** ** Python strings

    A [str] is a [string]; the operations the source uses are [in],
    [str.lower], [str.strip] and [str.join].  [lower] maps the letters
    [A]..[Z]; [isspace] is Python's whitespace in the ASCII range. *)

Module Str.

Definition lower_char (c : ascii) : ascii :=
  let n := nat_of_ascii c in
  if ((65 <=? n) && (n <=? 90))%nat then ascii_of_nat (n + 32) else c.

Fixpoint lower (s : string) : string :=
  match s with
  | EmptyString => EmptyString
  | String c t => String (lower_char c) (lower t)
  end.

Definition isspace (c : ascii) : bool :=
  let n := nat_of_ascii c in
  (((9 <=? n) && (n <=? 13)) || ((28 <=? n) && (n <=? 32)))%nat.

Fixpoint lstrip (s : string) : string :=
  match s with
  | EmptyString => EmptyString
  | String c t => if isspace c then lstrip t else s
  end.

Fixpoint rstrip (s : string) : string :=
  match s with
  | EmptyString => EmptyString
  | String c t =>
      match rstrip t with
      | EmptyString => if isspace c then EmptyString else String c EmptyString
      | t' => String c t'
      end
  end.

Definition strip (s : string) : string := rstrip (lstrip s).

(** [startswith p s]: [s.startswith(p)]. *)
Fixpoint startswith (p s : string) : bool :=
  match p, s with
  | EmptyString, _ => true
  | String a p', String b s' => bool_decide (a = b) && startswith p' s'
  | String _ _, EmptyString => false
  end.

(** [contains kw text]: the Python test [kw in text]. *)
Fixpoint contains (kw text : string) : bool :=
  startswith kw text ||
  match text with
  | EmptyString => false
  | String _ t => contains kw t
  end.

(** [join sep l]: [sep.join(l)]. *)
Fixpoint join (sep : string) (l : list string) : string :=
  match l with
  | [] => EmptyString
  | [s] => s
  | s :: r => s +:+ sep +:+ join sep r
  end.

Definition nonempty (s : string) : bool :=
  match s with EmptyString => false | _ => true end.

(** The shape of a word: it starts with no white space, ends with none,
    holds none. *)
Definition starts_nonspace (kw : string) : bool :=
  match kw with String c _ => negb (isspace c) | EmptyString => false end.
Fixpoint ends_nonspace (kw : string) : bool :=
  match kw with
  | EmptyString => false
  | String c EmptyString => negb (isspace c)
  | String _ t => ends_nonspace t
  end.

(** Words without a letter [A]..[Z]. *)
Definition is_upper (c : ascii) : bool :=
  let n := nat_of_ascii c in ((65 <=? n) && (n <=? 90))%nat.

Fixpoint no_upper (s : string) : bool :=
  match s with
  | EmptyString => true
  | String c t => negb (is_upper c) && no_upper t
  end.

End Str.

(** ** Configuration (class [Config]) *)

Record Config := {
  website_url : string;
  check_interval : Z;
  smtp_server : string;
  smtp_port : Z;
  email_user : string;
  email_password : string;
  sender : string;
  receiver : string;
  user_agent : string
}.

(** A field of the dataclass holds a [str] or an [int]. *)
Inductive value :=
| VStr (s : string)
| VInt (n : Z).

(** Python truth of a field value: [not value] is [negb (truthy value)]. *)
Definition truthy (v : value) : bool :=
  match v with
  | VStr s => Str.nonempty s
  | VInt n => negb (n =? 0)
  end.

(** [self.__dict__.items()]: the fields in the order of their declaration. *)
Definition items (self : Config) : list (string * value) :=
  [ ("website_url", VStr (website_url self));
    ("check_interval", VInt (check_interval self));
    ("smtp_server", VStr (smtp_server self));
    ("smtp_port", VInt (smtp_port self));
    ("email_user", VStr (email_user self));
    ("email_password", VStr (email_password self));
    ("sender", VStr (sender self));
    ("receiver", VStr (receiver self));
    ("user_agent", VStr (user_agent self)) ].

Definition cannot_be_empty (field : string) : string :=
  "配置项 " +:+ field +:+ " 不能为空".

(** The loop of [validate], with [errors] as its accumulator. *)
Fixpoint validate_loop (its : list (string * value)) (errors : list string)
  : list string :=
  match its with
  | [] => errors
  | (field, v) :: rest =>
      validate_loop rest
        (if truthy v then errors else errors ++ [cannot_be_empty field])
  end.

Definition validate (self : Config) : list string :=
  validate_loop (items self) [].

(** ** The monitor object (class [GregoryMonitor]) *)

Record GregoryMonitor := {
  config : Config;
  keywords : gset string;
  last_sent : Z;
  cooldown : Z
}.

(** The object [__init__] builds.  The logging set-up [__init__] ends with
    leaves the object as it is; that it can fail is part of [construct]. *)
Definition GregoryMonitor_init (cfg : Config) : GregoryMonitor :=
  {| config := cfg;
     keywords := {[ "sale"; "discount"; "off";
                    "promo"; "coupon"; "clearance";
                    "% off"; "special offer" ]};
     last_sent := 0;
     cooldown := 86400 |}.

Definition set_last_sent (t : Z) (self : GregoryMonitor) : GregoryMonitor :=
  {| config := config self; keywords := keywords self;
     last_sent := t; cooldown := cooldown self |}.

(** ** Exceptions and the effect monad

    Only the class of an exception matters to the handlers of the source:
    [requests.RequestException] and [smtplib.SMTPException] have handlers
    of their own, every other subclass of [Exception] falls to
    [except Exception], and [KeyboardInterrupt] is no [Exception] at all. *)

Inductive exn :=
| RequestException (msg : string)
| SMTPException (msg : string)
| OtherException (msg : string)
| KeyboardInterrupt.

(** [str(e)] *)
Definition str_of (e : exn) : string :=
  match e with
  | RequestException m | SMTPException m | OtherException m => m
  | KeyboardInterrupt => ""
  end.

Inductive outcome (A : Type) :=
| Returns (a : A)
| Raises (e : exn).
Arguments Returns {A} a.
Arguments Raises {A} e.

Inductive level := INFO | ERROR.

Inductive event :=
| Log (lvl : level) (msg : string)        (* logging.info / logging.error *)
| HttpGet (url : string)                  (* requests.get(url, ..., timeout=15) *)
| Clock (t : Z)                           (* time.time() gave t *)
| Mail (receiver : string) (sent : bool)  (* the SMTP session of send_email *)
| Sleep (secs : Z)                        (* time.sleep(secs) *)
| Print (line : string).                  (* print(line) *)

(** A method of the monitor: from the object as it is, a trace, the object
    as the method leaves it, and a result or an exception.  What a method
    assigned before it raised stays assigned. *)
Definition io (A : Type) : Type :=
  GregoryMonitor → list event * GregoryMonitor * outcome A.

Definition ret {A} (a : A) : io A := λ self, ([], self, Returns a).

Definition bind {A B} (f : A → io B) (m : io A) : io B := λ self,
  match m self with
  | (t, self', Returns a) =>
      let '(t', self'', r) := f a self' in (t ++ t', self'', r)
  | (t, self', Raises e) => (t, self', Raises e)
  end.

(** With these instances a computation is written [x ← m; k] and
    [m;; k]. *)
#[global] Instance io_ret : MRet io := @ret.
#[global] Instance io_bind : MBind io := @bind.

Definition get_self : io GregoryMonitor := λ self, ([], self, Returns self).

Definition assign_last_sent (t : Z) : io unit :=
  λ self, ([], set_last_sent t self, Returns tt).

(** A library call: the event, and the result the environment gives. *)
Definition call {A} (ev : event) (o : outcome A) : io A :=
  λ self, ([ev], self, o).

Definition logging (lvl : level) (msg : string) : io unit :=
  call (Log lvl msg) (Returns tt).

(** A library function that does no input or output but may raise. *)
Definition call_pure {A} (o : outcome A) : io A :=
  λ self, ([], self, o).

(** The SMTP session of [send_email]: the mail is sent when it returns. *)
Definition smtp_session (to : string) (o : outcome unit) : io unit :=
  call (Mail to (match o with Returns _ => true | Raises _ => false end)) o.

(** [try: m except ...: h]: [h e] is [Some k] when a clause of the
    statement catches [e], and [k] is the body of that clause. *)
Definition try_except {A} (m : io A) (h : exn → option (io A)) : io A :=
  λ self,
  match m self with
  | (t, self', Raises e) =>
      match h e with
      | Some k => let '(t', self'', r) := k self' in (t ++ t', self'', r)
      | None => (t, self', Raises e)
      end
  | done => done
  end.

(** [time.sleep(secs)] raises [ValueError] on a negative length and
    otherwise blocks; [o] tells how the wait ends. *)
Definition time_sleep (secs : Z) (o : outcome unit) : io unit :=
  if secs <? 0
  then call (Sleep secs) (Raises (OtherException "sleep length must be non-negative"))
  else call (Sleep secs) o.

(** ** The parsed page

    The tree that [BeautifulSoup(html, 'html.parser')] builds.  [Text] is a
    string that [get_text] yields (classes [NavigableString] and [CData]);
    [Special] is a string it skips (comments, doctype, declarations). *)

#[warnings="-register-all"]
Inductive node :=
| Text (s : string)
| Special (s : string)
| Tag (name : string) (children : list node).

Definition soup := list node.

(** The names of the subtrees line 95 removes. *)
Definition removed : list string := ["script"; "style"; "noscript"].

Module Soup.

(** [for element in soup(names): element.decompose()]: [soup(names)] is
    [find_all], every descendant tag whose name is in [names]; each one
    is cut out of the tree with all that is below it. *)
Fixpoint decompose (names : list string) (n : node) : option node :=
  match n with
  | Tag nm cs =>
      if bool_decide (nm ∈ names) then None
      else Some (Tag nm (omap (decompose names) cs))
  | _ => Some n
  end.

Definition decompose_all (names : list string) (sp : soup) : soup :=
  omap (decompose names) sp.

(** The strings of the tree in document order. *)
Fixpoint strings (n : node) : list string :=
  match n with
  | Text s => [s]
  | Special _ => []
  | Tag _ cs => cs ≫= strings
  end.

(** [soup.get_text(separator=sep, strip=True)]: every string is stripped,
    the empty ones are dropped, the rest joined. *)
Definition get_text (sep : string) (sp : soup) : string :=
  Str.join sep (filter (λ s, Str.nonempty s = true) (Str.strip <$> (sp ≫= strings))).

End Soup.

(** ** The environment of one cycle

    What the outside world answers during one pass of the loop, call by
    call; a call the pass does not reach leaves its field unread.  An
    interrupt by the operator is taken to arrive during one of the calls
    that wait: the request, the parse, the SMTP session and the two
    sleeps. *)

Record cycle := {
  http : outcome string;     (* requests.get, raise_for_status, response.text *)
  clock : Z;                 (* time.time() *)
  smtp : outcome unit;       (* SMTP connect, starttls, login, sendmail, quit *)
  nap : outcome unit;        (* time.sleep(check_interval) *)
  recovery : outcome unit    (* time.sleep(300) *)
}.

(** How far [run] got on the cycles it was given. *)
Inductive progress :=
| Looping     (* the cycles are used up and the loop is still going *)
| Returned.   (* the loop was left by [break] and [run] returned *)

(** After one pass of [while True]. *)
Inductive flow := Again | Break.

Section Program.

(** [BeautifulSoup(html, 'html.parser')] *)
Variable html_parser : string → outcome soup.

(** [int(s)] on a string of the environment *)
Variable int_of_str : string → outcome Z.

(** *** [Config.from_env] *)

(** [load_dotenv()]: the variables of the [.env] file ([dotenv], empty when
    there is no such file) are added to the environment; a variable the
    process already has keeps its value. *)
Definition load_dotenv (dotenv environ : gmap string string)
  : gmap string string :=
  environ ∪ dotenv.

Definition getenv_int (environ : gmap string string) (key : string)
    (default : Z) : outcome Z :=
  match environ !! key with
  | Some s => int_of_str s
  | None => Returns default
  end.

Definition getenv (environ : gmap string string) (key : string) : string :=
  default "" (environ !! key).

Definition from_env (dotenv environ : gmap string string) : outcome Config :=
  let environ := load_dotenv dotenv environ in
  match getenv_int environ "CHECK_INTERVAL" 1800 with
  | Raises e => Raises e
  | Returns interval =>
      match getenv_int environ "SMTP_PORT" 587 with
      | Raises e => Raises e
      | Returns port =>
          Returns {| website_url := getenv environ "WEBSITE_URL";
                     check_interval := interval;
                     smtp_server := getenv environ "SMTP_SERVER";
                     smtp_port := port;
                     email_user := getenv environ "EMAIL_USER";
                     email_password := getenv environ "EMAIL_PWD";
                     sender := getenv environ "SENDER";
                     receiver := getenv environ "RECEIVER";
                     user_agent := getenv environ "USER_AGENT" |}
      end
  end.

(** *** [GregoryMonitor.check_discount] *)

(** Lines 94 to 98: the text the keywords are looked up in. *)
Definition page_text (sp : soup) : string :=
  Str.lower
    (Soup.get_text " " (Soup.decompose_all removed sp)).

(** Line 99: [[kw for kw in self.keywords if kw in text]]. *)
Definition found_keywords (kws : gset string) (text : string) : list string :=
  filter (λ kw, Str.contains kw text = true) (elements kws).

Definition check_discount (w : cycle) : io bool :=
  try_except
    (self ← get_self;
     html ← call (HttpGet (website_url (config self))) (http w);
     sp ← call_pure (html_parser html);
     let text := page_text sp in
     match found_keywords (keywords self) text with
     | [] => mret false
     | found =>
         logging INFO ("发现折扣关键词：" +:+ Str.join ", " found);;
         mret true
     end)
    (λ e,
       match e with
       | RequestException m =>
           Some (logging ERROR ("网络请求异常：" +:+ m);; mret false)
       | SMTPException m | OtherException m =>
           Some (logging ERROR ("检查过程中发生异常：" +:+ m);; mret false)
       | KeyboardInterrupt => None
       end).

(** *** [GregoryMonitor.send_email] *)

Definition send_email (w : cycle) : io bool :=
  try_except
    (self ← get_self;
     smtp_session (receiver (config self)) (smtp w);;
     logging INFO "邮件发送成功";;
     mret true)
    (λ e,
       match e with
       | SMTPException m =>
           Some (logging ERROR ("SMTP错误：" +:+ m);; mret false)
       | RequestException m | OtherException m =>
           Some (logging ERROR ("邮件发送失败：" +:+ m);; mret false)
       | KeyboardInterrupt => None
       end).

(** *** [GregoryMonitor.run] *)

(** Lines 155 to 163: the check and what follows from its answer. *)
Definition react (w : cycle) : io unit :=
  found ← check_discount w;
  if found : bool then
    current_time ← call (Clock (clock w)) (Returns (clock w));
    self ← get_self;
    if bool_decide (current_time - last_sent self > cooldown self) then
      sent ← send_email w;
      if sent : bool then assign_last_sent current_time else mret tt
    else logging INFO "检测到折扣，但仍在冷却期内"
  else logging INFO "未检测到折扣信息".

(** Line 165. *)
Definition pause (w : cycle) : io unit :=
  self ← get_self;
  time_sleep (check_interval (config self)) (nap w).

(** Lines 155 to 165, the body of the [try]. *)
Definition attempt (w : cycle) : io unit :=
  react w;; pause w.

(** Lines 167 to 172, the two handlers of the [try]. *)
Definition on_exception (w : cycle) (e : exn) : option (io flow) :=
  match e with
  | KeyboardInterrupt =>
      Some (logging INFO "用户中断监控";; mret Break)
  | _ =>
      Some (logging ERROR ("主循环异常：" +:+ str_of e);;
            time_sleep 300 (recovery w);;
            mret Again)
  end.

(** One pass of [while True]. *)
Definition iteration (w : cycle) : io flow :=
  try_except (attempt w;; mret Again) (on_exception w).

Fixpoint while_true (world : list cycle) : io progress :=
  match world with
  | [] => mret Looping
  | w :: rest =>
      f ← iteration w;
      match f with
      | Again => while_true rest
      | Break => mret Returned
      end
  end.

Definition run (world : list cycle) : io progress :=
  logging INFO "启动折扣监控服务";;
  while_true world.

(** *** [main] *)

Fixpoint print_all (errors : list string) : list event :=
  match errors with
  | [] => []
  | error :: rest => Print error :: print_all rest
  end.

(** [GregoryMonitor(config)]: [__init__] ends with [_setup_logging], which
    makes the directory of the log and opens the log file; [logs] tells
    whether that went through.  It writes no line to the log. *)
Definition construct (logs : outcome unit) (cfg : Config)
  : outcome GregoryMonitor :=
  match logs with
  | Returns _ => Returns (GregoryMonitor_init cfg)
  | Raises e => Raises e
  end.

(** Lines 178 to 185: the configuration checked, and the monitor built and
    run when it passes. *)
Definition start (logs : outcome unit) (cfg : Config) (world : list cycle)
  : list event * outcome progress :=
  match validate cfg with
  | [] =>
      match construct logs cfg with
      | Returns monitor => let '(t, _, r) := run world monitor in (t, r)
      | Raises e => ([], Raises e)
      end
  | errors => (print_all errors, Returns Returned)
  end.

Definition main (dotenv environ : gmap string string) (logs : outcome unit)
    (world : list cycle) : list event * outcome progress :=
  match from_env dotenv environ with
  | Raises e => ([], Raises e)
  | Returns cfg => start logs cfg world
  end.

End Program.

(** ** Words of the specification *)

(** [visible n s]: [s] is a string of the page below [n] that lies in no
    [script], [style] or [noscript] subtree. *)
Inductive visible : node → string → Prop :=
| visible_text s : visible (Text s) s
| visible_tag nm cs c s :
    nm ∉ removed → c ∈ cs → visible c s → visible (Tag nm cs) s.

Definition visible_in (sp : soup) (s : string) : Prop :=
  ∃ n, n ∈ sp ∧ visible n s.







(** The names of the fields that hold nothing, in the order of the class:
    an empty string, or the number 0. *)
Definition empty_fields (cfg : Config) : list string :=
  (if bool_decide (website_url cfg = "") then ["website_url"] else [])
  ++ (if bool_decide (check_interval cfg = 0) then ["check_interval"] else [])
  ++ (if bool_decide (smtp_server cfg = "") then ["smtp_server"] else [])
  ++ (if bool_decide (smtp_port cfg = 0) then ["smtp_port"] else [])
  ++ (if bool_decide (email_user cfg = "") then ["email_user"] else [])
  ++ (if bool_decide (email_password cfg = "") then ["email_password"] else [])
  ++ (if bool_decide (sender cfg = "") then ["sender"] else [])
  ++ (if bool_decide (receiver cfg = "") then ["receiver"] else [])
  ++ (if bool_decide (user_agent cfg = "") then ["user_agent"] else []).


(** The monitor as [run] can find it: built by [__init__], with [last_sent]
    assigned any number of times. *)
Definition monitor_at (cfg : Config) (t : Z) : GregoryMonitor :=
  set_last_sent t (GregoryMonitor_init cfg).

(** ** Reading a trace *)

Definition is_mail (ev : event) : bool :=
  match ev with Mail _ _ => true | _ => false end.

Definition is_sent (ev : event) : bool :=
  match ev with Mail _ true => true | _ => false end.

Definition is_get (ev : event) : bool :=
  match ev with HttpGet _ => true | _ => false end.

Definition is_print (ev : event) : bool :=
  match ev with Print _ => true | _ => false end.

Definition count (f : event → bool) (tr : list event) : nat :=
  length (filter (λ ev, f ev = true) tr).

(** How often [send_email] opened its SMTP session, and how many mails
    went out. *)
Definition mail_attempts : list event → nat := count is_mail.
Definition mails_sent : list event → nat := count is_sent.

(** The clock readings under which mails went out: every mail sent is
    listed with the value [time.time()] gave last before it; [now] is the
    reading before the trace starts. *)
Fixpoint deliveries (now : Z) (tr : list event) : list Z :=
  match tr with
  | [] => []
  | Clock t :: rest => deliveries t rest
  | Mail _ true :: rest => now :: deliveries now rest
  | _ :: rest => deliveries now rest
  end.

(** The last reading of the clock in a trace, [now] when it has none. *)
Fixpoint last_clock (now : Z) (tr : list event) : Z :=
  match tr with
  | [] => now
  | Clock t :: rest => last_clock t rest
  | _ :: rest => last_clock now rest
  end.

(** [spaced prev l]: each reading of [l] is more than 86400 after the one
    before it, the first one after [prev]. *)
Fixpoint spaced (prev : Z) (l : list Z) : Prop :=
  match l with
  | [] => True
  | t :: rest => t - prev > 86400 ∧ spaced t rest
  end.

(** ** Reading a cycle *)

Section Cycles.

Variable html_parser : string → outcome soup.

(** What [check_discount] answers in the cycle; the answer does not depend
    on [last_sent]. *)
Definition detects (cfg : Config) (w : cycle) : Prop :=
  (check_discount html_parser w (GregoryMonitor_init cfg)).2 = Returns true.

Definition misses (cfg : Config) (w : cycle) : Prop :=
  (check_discount html_parser w (GregoryMonitor_init cfg)).2 = Returns false.

(** The trace [check_discount] leaves in the cycle. *)
Definition check_trace (cfg : Config) (w : cycle) : list event :=
  (check_discount html_parser w (GregoryMonitor_init cfg)).1.1.

End Cycles.

(** [resumes cfg w]: the sleep at the end of the cycle lets the loop go
    on: it returns, or it raises an [Exception] and the sleep of the
    handler returns. *)
Definition resumes (cfg : Config) (w : cycle) : bool :=
  match (time_sleep (check_interval cfg) (nap w) (GregoryMonitor_init cfg)).2 with
  | Returns _ => true
  | Raises KeyboardInterrupt => false
  | Raises _ => match recovery w with Returns _ => true | Raises _ => false end
  end.

(** The end of a pass whose check and reaction went through: the sleep of
    line 165 under the handlers of the [try], and its trace. *)
Definition cycle_end (w : cycle) : io flow :=
  try_except (pause w;; mret Again) (on_exception w).

Definition cycle_end_trace (cfg : Config) (w : cycle) : list event :=
  (cycle_end w (GregoryMonitor_init cfg)).1.1.

(** A cycle without a match after which the loop goes on. *)
Definition idle (html_parser : string → outcome soup) (cfg : Config)
    (w : cycle) : Prop :=
  misses html_parser cfg w ∧ resumes cfg w = true.

(** How the pass ends: [Returns Again], [Returns Break] or an exception
    that leaves [run]. *)
Definition cycle_end_result (cfg : Config) (w : cycle) : outcome flow :=
  (cycle_end w (GregoryMonitor_init cfg)).2.

(** The fields [validate] finds empty. *)
Definition missing (cfg : Config) : list (string * value) :=
  filter (λ fv, truthy fv.2 = false) (items cfg).



(** ** Inputs to run the definitions on *)

(** What the parser does on the pages used below: a page without markup
    is one string, three pages with markup give their trees, and the
    marked section of the last page is refused. *)
Definition sample_parser (html : string) : outcome soup :=
  if bool_decide (html = "<script>sale</script><p>Welcome</p>")
  then Returns [Tag "script" [Text "sale"]; Tag "p" [Text "Welcome"]]
  else if bool_decide (html = "<p>special</p><p>offer</p>")
  then Returns [Tag "p" [Text "special"]; Tag "p" [Text "offer"]]
  else if bool_decide (html = "<b>s</b>ale")
  then Returns [Tag "b" [Text "s"]; Text "ale"]
  else if bool_decide (html = "<![x]> sale")
  then Raises (OtherException "unknown status keyword 'x' in marked section")
  else Returns [Text html].

(** [int] on the decimal numbers: ASCII digits with an optional sign,
    white space around them allowed; any other text is refused with the
    message of [ValueError]. *)
Fixpoint digits (s : string) (acc : Z) : option Z :=
  match s with
  | EmptyString => Some acc
  | String c t =>
      let n := nat_of_ascii c in
      if ((48 <=? n) && (n <=? 57))%nat
      then digits t (10 * acc + Z.of_nat (n - 48))
      else None
  end.

Definition unsigned (s : string) : option Z :=
  match s with
  | EmptyString => None
  | _ => digits s 0
  end.

Definition decimal (s : string) : outcome Z :=
  let number :=
    match Str.strip s with
    | String "-" t => Z.opp <$> unsigned t
    | String "+" t => unsigned t
    | t => unsigned t
    end in
  match number with
  | Some z => Returns z
  | None =>
      Raises (OtherException
                ("invalid literal for int() with base 10: '" +:+ s +:+ "'"))
  end.

Definition shop : Config :=
  {| website_url := "https://shop.example/";
     check_interval := 1800;
     smtp_server := "smtp.example";
     smtp_port := 587;
     email_user := "bot";
     email_password := "secret";
     sender := "bot@shop.example";
     receiver := "me@shop.example";
     user_agent := "Mozilla/5.0" |}.

Definition shop_no_server : Config :=
  {| website_url := "https://shop.example/";
     check_interval := 1800;
     smtp_server := "";
     smtp_port := 587;
     email_user := "bot";
     email_password := "secret";
     sender := "bot@shop.example";
     receiver := "me@shop.example";
     user_agent := "Mozilla/5.0" |}.

(** The environment that gives [shop], and the same without
    [SMTP_SERVER]. *)
Definition environ_no_server : gmap string string :=
  <["WEBSITE_URL" := "https://shop.example/"]>
  (<["CHECK_INTERVAL" := "1800"]>
  (<["SMTP_PORT" := "587"]>
  (<["EMAIL_USER" := "bot"]>
  (<["EMAIL_PWD" := "secret"]>
  (<["SENDER" := "bot@shop.example"]>
  (<["RECEIVER" := "me@shop.example"]>
  (<["USER_AGENT" := "Mozilla/5.0"]> ∅))))))).

Definition environ_full : gmap string string :=
  <["SMTP_SERVER" := "smtp.example"]> environ_no_server.

Definition with_interval (n : Z) (cfg : Config) : Config :=
  {| website_url := website_url cfg;
     check_interval := n;
     smtp_server := smtp_server cfg;
     smtp_port := smtp_port cfg;
     email_user := email_user cfg;
     email_password := email_password cfg;
     sender := sender cfg;
     receiver := receiver cfg;
     user_agent := user_agent cfg |}.

(** A cycle in which the page comes back as [page] at clock reading [t]
    and nothing fails. *)
Definition calm (page : string) (t : Z) : cycle :=
  {| http := Returns page; clock := t; smtp := Returns tt;
     nap := Returns tt; recovery := Returns tt |}.

(** A cycle without a match in which the operator interrupts the sleep of
    the handler. *)
Definition interrupted_recovery (page : string) (t : Z) : cycle :=
  {| http := Returns page; clock := t; smtp := Returns tt;
     nap := Returns tt; recovery := Raises KeyboardInterrupt |}.

(** The same with a failing SMTP session. *)
Definition no_smtp (page : string) (t : Z) : cycle :=
  {| http := Returns page; clock := t;
     smtp := Raises (SMTPException "authentication failed");
     nap := Returns tt; recovery := Returns tt |}.

(** A cycle in which the operator interrupts the request. *)
Definition interrupted_fetch (t : Z) : cycle :=
  {| http := Raises KeyboardInterrupt; clock := t; smtp := Returns tt;
     nap := Returns tt; recovery := Returns tt |}.

(** A cycle whose sleep at the end raises. *)
Definition bad_nap (page : string) (t : Z) : cycle :=
  {| http := Returns page; clock := t; smtp := Returns tt;
     nap := Raises (OtherException "sleep failed"); recovery := Returns tt |}.

(** A cycle whose request fails. *)
Definition offline (t : Z) : cycle :=
  {| http := Raises (RequestException "connection refused"); clock := t;
     smtp := Returns tt; nap := Returns tt; recovery := Returns tt |}.

(** ** What the methods log *)

(** Line 102. *)
Definition log_found (found : list string) : list event :=
  match found with
  | [] => []
  | _ => [Log INFO ("发现折扣关键词：" +:+ Str.join ", " found)]
  end.

(** Lines 107 to 112: what [check_discount] logs for an exception it
    catches. *)
Definition caught (e : exn) : list event :=
  match e with
  | RequestException m => [Log ERROR ("网络请求异常：" +:+ m)]
  | SMTPException m | OtherException m =>
      [Log ERROR ("检查过程中发生异常：" +:+ m)]
  | KeyboardInterrupt => []
  end.

(** Lines 142 to 147: the same for [send_email]. *)
Definition mail_error (e : exn) : list event :=
  match e with
  | SMTPException m => [Log ERROR ("SMTP错误：" +:+ m)]
  | RequestException m | OtherException m =>
      [Log ERROR ("邮件发送失败：" +:+ m)]
  | KeyboardInterrupt => []
  end.

(** * Properties *)

(** ** Strings *)

Module StrFacts.
Import Str.

Lemma app_cons c (a b : string) : String c a +:+ b = String c (a +:+ b).
Proof. reflexivity. Qed.


Lemma app_assoc (a b c : string) : (a +:+ b) +:+ c = a +:+ (b +:+ c).
Proof.
  induction a as [|x a IH]; [done|]. by rewrite !app_cons, IH.
Qed.

Lemma startswith_app_l kw a b :
  startswith kw a = true → startswith kw (a +:+ b) = true.
Proof.
  revert a. induction kw as [|k kw IH]; intros [|c a]; simpl; try done.
  intros [-> H]%andb_prop. by rewrite (IH _ H).
Qed.

Lemma contains_nil kw : contains kw "" = startswith kw "".
Proof. simpl. apply orb_false_r. Qed.

Lemma contains_app_l kw a b :
  contains kw a = true → contains kw (a +:+ b) = true.
Proof.
  induction a as [|c a IH].
  - rewrite contains_nil. intros H. destruct kw; [|done]. by destruct b.
  - cbn [contains]. intros [H|H]%orb_prop.
    + rewrite app_cons. cbn [contains]. apply orb_true_intro.
      left. by apply (startswith_app_l kw (String c a) b).
    + rewrite app_cons. cbn [contains]. apply orb_true_intro.
      right. by apply IH.
Qed.

Lemma contains_app_r kw a b :
  contains kw b = true → contains kw (a +:+ b) = true.
Proof.
  intros H. induction a as [|c a IH]; [done|].
  rewrite app_cons. cbn [contains]. rewrite IH. apply orb_true_r.
Qed.

Lemma startswith_inv p s : startswith p s = true → ∃ r, s = p +:+ r.
Proof.
  revert s. induction p as [|a p IH]; intros s; simpl.
  - by exists s.
  - destruct s as [|b s]; [done|].
    intros [Hab H]%andb_prop. apply bool_decide_eq_true in Hab as ->.
    destruct (IH _ H) as [r ->]. by exists r.
Qed.

Lemma contains_trans w kw t :
  contains w kw = true → contains kw t = true → contains w t = true.
Proof.
  intros Hw. induction t as [|c t IH].
  - rewrite contains_nil. intros [r Hr]%startswith_inv.
    rewrite Hr. by apply contains_app_l.
  - cbn [contains]. intros [H|H]%orb_prop.
    + apply startswith_inv in H as [r Hr].
      change (contains w (String c t) = true).
      rewrite Hr. by apply contains_app_l.
    + rewrite (IH H). apply orb_true_r.
Qed.

Lemma isspace_lower_char c : isspace (lower_char c) = isspace c.
Proof. by destruct c as [[] [] [] [] [] [] [] []]; vm_compute. Qed.

Lemma lower_app a b : lower (a +:+ b) = lower a +:+ lower b.
Proof.
  induction a as [|c a IH]; [done|]. rewrite app_cons. simpl. by rewrite IH.
Qed.

Lemma lower_lstrip s : lower (lstrip s) = lstrip (lower s).
Proof.
  induction s as [|c s IH]; [done|]. simpl.
  rewrite isspace_lower_char. by destruct (isspace c).
Qed.

Lemma lower_rstrip s : lower (rstrip s) = rstrip (lower s).
Proof.
  induction s as [|c s IH]; [done|]. simpl.
  rewrite <- IH, isspace_lower_char.
  destruct (rstrip s); simpl; [by destruct (isspace c) | done].
Qed.

Lemma lower_strip s : lower (strip s) = strip (lower s).
Proof. unfold strip. by rewrite lower_rstrip, lower_lstrip. Qed.

Lemma lower_join sep l : lower (join sep l) = join (lower sep) (lower <$> l).
Proof.
  induction l as [|x [|y l] IH]; [done..|].
  change (lower (x +:+ sep +:+ join sep (y :: l))
          = lower x +:+ lower sep +:+ join (lower sep) (lower <$> y :: l)).
  by rewrite !lower_app, IH.
Qed.

Lemma nonempty_lower s : nonempty (lower s) = nonempty s.
Proof. by destruct s. Qed.

(** Stripping keeps every occurrence of a word that neither starts nor
    ends with white space. *)
Lemma contains_lstrip kw s :
  starts_nonspace kw = true → contains kw (lstrip s) = contains kw s.
Proof.
  intros Hk. induction s as [|c s IH]; [done|].
  cbn [lstrip]. destruct (isspace c) eqn:Hc; [|done].
  rewrite IH. cbn [contains].
  destruct kw as [|k kw]; [done|]. simpl in Hk. simpl.
  case_bool_decide; [|done]. subst. by rewrite Hc in Hk.
Qed.

Lemma ends_nonspace_cons c kw :
  ends_nonspace (String c kw) = true →
  (kw = "" ∧ isspace c = false) ∨ ends_nonspace kw = true.
Proof.
  destruct kw; simpl; [|by right].
  intros H. left. split; [done|]. by apply negb_true_iff.
Qed.

Lemma startswith_rstrip kw s :
  ends_nonspace kw = true → startswith kw (rstrip s) = startswith kw s.
Proof.
  revert kw. induction s as [|c s IH]; intros kw Hk; [done|].
  destruct kw as [|k kw]; [done|].
  apply ends_nonspace_cons in Hk as [[-> Hk]|Hk].
  - cbn [rstrip]. destruct (rstrip s); simpl.
    + destruct (isspace c) eqn:Hc; simpl; [|done].
      case_bool_decide; [|done]. subst. by rewrite Hc in Hk.
    + done.
  - specialize (IH kw Hk). cbn [rstrip].
    destruct (rstrip s) eqn:Hr; simpl.
    + destruct (isspace c); simpl; rewrite <- IH; destruct kw; simpl;
        try done; by rewrite ?andb_false_r.
    + by rewrite <- IH.
Qed.

Lemma contains_rstrip kw s :
  ends_nonspace kw = true → contains kw (rstrip s) = contains kw s.
Proof.
  intros Hk. induction s as [|c s IH]; [done|].
  cbn [contains]. rewrite <- (startswith_rstrip kw (String c s) Hk), <- IH.
  cbn [rstrip]. destruct (rstrip s) eqn:Hr.
  - destruct (isspace c); cbn [contains]; [|done].
    by destruct (startswith kw "").
  - done.
Qed.

Lemma contains_strip kw s :
  starts_nonspace kw = true → ends_nonspace kw = true →
  contains kw (strip s) = contains kw s.
Proof.
  intros H1 H2. unfold strip. by rewrite contains_rstrip, contains_lstrip.
Qed.

Lemma contains_nonempty kw s :
  nonempty kw = true → contains kw s = true → nonempty s = true.
Proof. by destruct kw, s. Qed.

(** A word found in one of the strings is found in their join. *)
Lemma contains_join_elem kw sep x l :
  x ∈ l → contains kw x = true → contains kw (join sep l) = true.
Proof.
  intros Hx Hc. induction l as [|y l IH]; [by apply elem_of_nil in Hx|].
  destruct l as [|z l].
  - apply list_elem_of_singleton in Hx as ->. done.
  - change (join sep (y :: z :: l)) with (y +:+ sep +:+ join sep (z :: l)).
    apply elem_of_cons in Hx as [->|Hx].
    + by apply contains_app_l.
    + apply contains_app_r, contains_app_r. by apply IH.
Qed.





End StrFacts.

(** ** The parsed page *)

Module SoupFacts.
Import Soup.

Lemma node_induction (P : node → Prop) :
  (∀ s, P (Text s)) → (∀ s, P (Special s)) →
  (∀ nm cs, Forall P cs → P (Tag nm cs)) → ∀ n, P n.
Proof.
  intros HT HS HG. fix IH 1. intros [s|s|nm cs]; [apply HT | apply HS |].
  apply HG. induction cs as [|c cs IHcs]; constructor; [apply IH | apply IHcs].
Qed.

Lemma decompose_tag names nm cs :
  decompose names (Tag nm cs) =
    if bool_decide (nm ∈ names) then None
    else Some (Tag nm (omap (decompose names) cs)).
Proof. reflexivity. Qed.

Lemma strings_tag nm cs : strings (Tag nm cs) = cs ≫= strings.
Proof. reflexivity. Qed.

Lemma visible_kept n s :
  visible n s → ∃ n', decompose removed n = Some n' ∧ s ∈ strings n'.
Proof.
  induction 1 as [s|nm cs c s Hnm Hc _ (c' & Hd & Hs)].
  - exists (Text s). split; [done | by apply list_elem_of_singleton].
  - exists (Tag nm (omap (decompose removed) cs)). split.
    + rewrite decompose_tag. by rewrite bool_decide_eq_false_2.
    + rewrite strings_tag. apply list_elem_of_bind. exists c'.
      split; [done|]. apply list_elem_of_omap. by exists c.
Qed.

Lemma kept_visible n : ∀ n' s,
  decompose removed n = Some n' → s ∈ strings n' → visible n s.
Proof.
  induction n as [s0|s0|nm cs IH] using node_induction; intros n' s Hd Hs.
  - injection Hd as <-. apply list_elem_of_singleton in Hs as ->. constructor.
  - injection Hd as <-. by apply elem_of_nil in Hs.
  - rewrite decompose_tag in Hd. case_bool_decide as Hnm; [done|].
    injection Hd as <-. rewrite strings_tag in Hs.
    apply list_elem_of_bind in Hs as (c' & Hs & Hc').
    apply list_elem_of_omap in Hc' as (c & Hc & Hd).
    apply (visible_tag nm cs c s Hnm Hc).
    rewrite Forall_forall in IH. by apply (IH c Hc c').
Qed.

(** The strings that are left after line 96 are the visible ones. *)
Lemma visible_in_strings sp s :
  visible_in sp s ↔ s ∈ (decompose_all removed sp ≫= strings).
Proof.
  unfold visible_in, decompose_all. rewrite list_elem_of_bind. split.
  - intros (n & Hn & (n' & Hd & Hs)%visible_kept). exists n'.
    split; [done|]. apply list_elem_of_omap. by exists n.
  - intros (n' & Hs & (n & Hn & Hd)%list_elem_of_omap).
    exists n. split; [done|]. by apply (kept_visible n n').
Qed.
End SoupFacts.

(** ** The text of the page and the keywords *)

Section Detection.
Import Str StrFacts SoupFacts.

Lemma page_text_join sp :
  page_text sp =
    join " " (lower <$> filter (λ s, nonempty s = true)
                          (strip <$> (Soup.decompose_all removed sp ≫= Soup.strings))).
Proof. unfold page_text, Soup.get_text. by rewrite lower_join. Qed.

(** A word in a visible string is a word of the text. *)
Lemma visible_word_in_text sp s kw :
  starts_nonspace kw = true → ends_nonspace kw = true →
  visible_in sp s → contains kw (lower s) = true →
  contains kw (page_text sp) = true.
Proof.
  intros H1 H2 Hv Hc. rewrite page_text_join.
  assert (contains kw (lower (strip s)) = true) as Hc'
    by (by rewrite lower_strip, contains_strip).
  apply (contains_join_elem kw " " (lower (strip s))); [|done].
  apply list_elem_of_fmap_2, list_elem_of_filter. split.
  - rewrite <- nonempty_lower. apply (contains_nonempty kw); [|done].
    by destruct kw.
  - by apply list_elem_of_fmap_2, visible_in_strings.
Qed.





End Detection.

(** ** Words without regard to case, and the text a reader sees *)

Section Reading.
Import Str StrFacts SoupFacts.














End Reading.

(** ** The methods, call by call *)

(** Unfolds the monad. *)
Ltac run_io :=
  unfold iteration, cycle_end, attempt, react, pause, on_exception,
    check_discount, send_email, try_except,
    smtp_session, logging, call, call_pure, get_self, assign_last_sent,
    time_sleep, mbind, mret, io_bind, io_ret, bind, ret; simpl.

Section Methods.
Import Str StrFacts SoupFacts.
Variable html_parser : string → outcome soup.



Lemma check_discount_page w self html sp :
  http w = Returns html → html_parser html = Returns sp →
  check_discount html_parser w self =
    (HttpGet (website_url (config self))
       :: log_found (found_keywords (keywords self) (page_text sp)),
     self,
     Returns (match found_keywords (keywords self) (page_text sp) with
              | [] => false | _ => true end)).
Proof.
  intros Hh Hp. run_io. rewrite Hh. simpl. rewrite Hp.
  by destruct (found_keywords _ _).
Qed.


Lemma check_discount_fetch_fails w self e :
  http w = Raises e → e ≠ KeyboardInterrupt →
  check_discount html_parser w self =
    (HttpGet (website_url (config self)) :: caught e, self, Returns false).
Proof. intros Hh He. run_io. rewrite Hh. by destruct e. Qed.

Lemma check_discount_parse_fails w self html e :
  http w = Returns html → html_parser html = Raises e →
  e ≠ KeyboardInterrupt →
  check_discount html_parser w self =
    (HttpGet (website_url (config self)) :: caught e, self, Returns false).
Proof. intros Hh Hp He. run_io. rewrite Hh. simpl. rewrite Hp. by destruct e. Qed.

Lemma check_discount_state w self :
  (check_discount html_parser w self).1.2 = self.
Proof.
  run_io. destruct (http w) as [html|[]]; simpl; try done.
  destruct (html_parser html) as [sp|[]]; simpl; try done.
  by destruct (found_keywords _ _).
Qed.

Lemma check_discount_last_sent w cfg t :
  (check_discount html_parser w (monitor_at cfg t)).2
  = (check_discount html_parser w (GregoryMonitor_init cfg)).2.
Proof.
  run_io. destruct (http w) as [html|[]]; simpl; try done.
  destruct (html_parser html) as [sp|[]]; simpl; try done.
  by destruct (found_keywords _ _).
Qed.

(** *** The end of a pass *)

Lemma cycle_end_eval w cfg t :
  cycle_end w (monitor_at cfg t)
  = (cycle_end_trace cfg w, monitor_at cfg t, cycle_end_result cfg w).
Proof.
  unfold cycle_end_trace, cycle_end_result. run_io.
  destruct (check_interval cfg <? 0); simpl.
  - by destruct (recovery w).
  - destruct (nap w) as [|[]]; simpl; try done; by destruct (recovery w).
Qed.

Lemma cycle_end_resumes w cfg :
  resumes cfg w = true →
  cycle_end_result cfg w = Returns Again.
Proof.
  unfold resumes, cycle_end_result. run_io.
  destruct (check_interval cfg <? 0); simpl.
  - by destruct (recovery w).
  - destruct (nap w) as [|[]]; simpl; try done; by destruct (recovery w).
Qed.

Lemma cycle_end_trace_head cfg w :
  ∃ tail, cycle_end_trace cfg w = Sleep (check_interval cfg) :: tail.
Proof.
  unfold cycle_end_trace. run_io.
  destruct (check_interval cfg <? 0); simpl.
  - destruct (recovery w); eauto.
  - destruct (nap w) as [|[]]; simpl; eauto; destruct (recovery w); eauto.
Qed.

Lemma cycle_end_trace_quiet cfg w f :
  (∀ l m, f (Log l m) = false) → (∀ n, f (Sleep n) = false) →
  count f (cycle_end_trace cfg w) = 0%nat.
Proof.
  intros HL HS. unfold cycle_end_trace, count. run_io.
  destruct (check_interval cfg <? 0); simpl.
  - destruct (recovery w); simpl; rewrite ?filter_cons, ?HL, ?HS; done.
  - destruct (nap w) as [|[]]; simpl; try destruct (recovery w); simpl;
      rewrite ?filter_cons, ?HL, ?HS; done.
Qed.

Lemma cycle_end_trace_deliveries cfg w now :
  deliveries now (cycle_end_trace cfg w) = [].
Proof.
  unfold cycle_end_trace. run_io.
  destruct (check_interval cfg <? 0); simpl.
  - by destruct (recovery w).
  - destruct (nap w) as [|[]]; simpl; try done; by destruct (recovery w).
Qed.

(** *** One pass of the loop *)

(** The pass when lines 155 to 163 go through. *)
Lemma iteration_react w self tr self' :
  react html_parser w self = (tr, self', Returns tt) →
  iteration html_parser w self =
    let '(t2, s2, r) := cycle_end w self' in (tr ++ t2, s2, r).
Proof.
  intros H. unfold iteration, attempt, cycle_end, try_except.
  unfold mbind, io_bind, bind at 1 2. rewrite H.
  unfold mbind, io_bind, bind.
  destruct (pause w self') as [[t1 s1] [[]|e]]; simpl.
  - by rewrite ?app_nil_r, <- ?List.app_assoc.
  - destruct (on_exception w e) as [k|]; [|done].
    destruct (k s1) as [[t3 s3] r3]. by rewrite ?app_nil_r, <- ?List.app_assoc.
Qed.

Lemma check_discount_at cfg t w :
  check_discount html_parser w (monitor_at cfg t)
  = (check_trace html_parser cfg w, monitor_at cfg t,
     (check_discount html_parser w (GregoryMonitor_init cfg)).2).
Proof.
  unfold check_trace. run_io. destruct (http w) as [html|[]]; simpl; try done.
  destruct (html_parser html) as [sp|[]]; simpl; try done.
  by destruct (found_keywords _ _).
Qed.

Lemma check_trace_quiet cfg w f :
  (∀ l m, f (Log l m) = false) → (∀ u, f (HttpGet u) = false) →
  count f (check_trace html_parser cfg w) = 0%nat.
Proof.
  intros HL HG. unfold check_trace, count. run_io.
  destruct (http w) as [html|[]]; simpl; rewrite ?filter_cons, ?HL, ?HG; try done.
  destruct (html_parser html) as [sp|[]]; simpl; rewrite ?filter_cons, ?HL, ?HG; try done.
  destruct (found_keywords _ _); simpl; rewrite ?filter_cons, ?HL, ?HG; done.
Qed.

Lemma check_trace_deliveries cfg w now :
  deliveries now (check_trace html_parser cfg w) = [].
Proof.
  unfold check_trace. run_io. destruct (http w) as [html|[]]; simpl; try done.
  destruct (html_parser html) as [sp|[]]; simpl; try done.
  by destruct (found_keywords _ _).
Qed.

(** Lines 155 to 163, case by case. *)
Lemma react_miss cfg t w :
  misses html_parser cfg w →
  react html_parser w (monitor_at cfg t)
  = (check_trace html_parser cfg w ++ [Log INFO "未检测到折扣信息"],
     monitor_at cfg t, Returns tt).
Proof.
  unfold misses. intros H. unfold react, mbind, io_bind, bind.
  rewrite check_discount_at, H. done.
Qed.

Lemma react_cooldown cfg t w :
  detects html_parser cfg w → clock w - t ≤ 86400 →
  react html_parser w (monitor_at cfg t)
  = (check_trace html_parser cfg w
       ++ [Clock (clock w); Log INFO "检测到折扣，但仍在冷却期内"],
     monitor_at cfg t, Returns tt).
Proof.
  unfold detects. intros H Ht. unfold react, mbind, io_bind, bind.
  rewrite check_discount_at, H. simpl.
  rewrite bool_decide_eq_false_2 by lia. done.
Qed.

Lemma react_sent cfg t w :
  detects html_parser cfg w → clock w - t > 86400 → smtp w = Returns tt →
  react html_parser w (monitor_at cfg t)
  = (check_trace html_parser cfg w
       ++ [Clock (clock w); Mail (receiver cfg) true; Log INFO "邮件发送成功"],
     monitor_at cfg (clock w), Returns tt).
Proof.
  unfold detects. intros H Ht Hs. unfold react, mbind, io_bind, bind.
  rewrite check_discount_at, H. simpl.
  rewrite bool_decide_eq_true_2 by lia. run_io. rewrite Hs. done.
Qed.


Lemma react_send_fails cfg t w e :
  detects html_parser cfg w → clock w - t > 86400 → smtp w = Raises e →
  react html_parser w (monitor_at cfg t)
  = (check_trace html_parser cfg w
       ++ [Clock (clock w); Mail (receiver cfg) false] ++ mail_error e,
     monitor_at cfg t,
     match e with KeyboardInterrupt => Raises e | _ => Returns tt end).
Proof.
  unfold detects. intros H Ht Hs. unfold react, mbind, io_bind, bind.
  rewrite check_discount_at, H. simpl.
  rewrite bool_decide_eq_true_2 by lia. run_io. rewrite Hs. by destruct e.
Qed.

Lemma iteration_at cfg t w tr t' :
  react html_parser w (monitor_at cfg t) = (tr, monitor_at cfg t', Returns tt) →
  iteration html_parser w (monitor_at cfg t)
  = (tr ++ cycle_end_trace cfg w, monitor_at cfg t', cycle_end_result cfg w).
Proof.
  intros H. rewrite (iteration_react _ _ _ _ H). by rewrite cycle_end_eval.
Qed.

(** *** The loop *)

Lemma while_true_again w rest self tr self' :
  iteration html_parser w self = (tr, self', Returns Again) →
  while_true html_parser (w :: rest) self
  = let '(t2, s2, r) := while_true html_parser rest self' in (tr ++ t2, s2, r).
Proof.
  intros H. cbn [while_true]. unfold mbind, io_bind, bind. by rewrite H.
Qed.

Lemma while_true_app ws1 ws2 self tr self' :
  while_true html_parser ws1 self = (tr, self', Returns Looping) →
  while_true html_parser (ws1 ++ ws2) self
  = let '(t2, s2, r) := while_true html_parser ws2 self' in (tr ++ t2, s2, r).
Proof.
  revert self tr. induction ws1 as [|w ws1 IH]; intros self tr.
  - intros [= <- <-]. simpl. by destruct (while_true _ ws2 _) as [[??]?].
  - cbn [while_true app]. unfold mbind, io_bind, bind.
    destruct (iteration html_parser w self) as [[t1 s1] [[]|e]]; [| |done].
    + destruct (while_true html_parser ws1 s1) as [[t2 s2] r2] eqn:E.
      intros [= <- <- ->]. rewrite (IH _ _ E).
      destruct (while_true _ ws2 _) as [[??]?]. by rewrite List.app_assoc.
    + done.
Qed.
End Methods.

(** ** Traces *)

Lemma count_app f a b : count f (a ++ b) = (count f a + count f b)%nat.
Proof. unfold count. by rewrite filter_app, length_app. Qed.

Lemma count_cons f ev tr :
  count f (ev :: tr) = ((if f ev then 1 else 0) + count f tr)%nat.
Proof.
  unfold count. rewrite filter_cons. destruct (f ev); [|done].
  by rewrite decide_True.
Qed.

Lemma deliveries_app now a b :
  deliveries now (a ++ b) = deliveries now a ++ deliveries (last_clock now a) b.
Proof.
  revert now. induction a as [|ev a IH]; intros now; [done|].
  destruct ev as [| | |to []| |]; simpl; by rewrite IH.
Qed.

Lemma deliveries_length now tr : length (deliveries now tr) = mails_sent tr.
Proof.
  unfold mails_sent, count. revert now.
  induction tr as [|ev tr IH]; intros now; [done|].
  destruct ev as [| | |to []| |]; simpl; rewrite ?filter_cons; simpl;
    by rewrite IH.
Qed.

Lemma spaced_lookup prev l i j ti tj :
  spaced prev l → (i < j)%nat → l !! i = Some ti → l !! j = Some tj →
  tj - ti > 86400.
Proof.
  revert prev i j. induction l as [|x l IH]; intros prev i j Hs Hij Hi Hj.
  - done.
  - destruct Hs as [Hx Hs]. destruct j as [|j]; [lia|]. simpl in Hj.
    destruct i as [|i].
    + injection Hi as ->. clear IH Hij Hx. revert ti j Hs Hj.
      induction l as [|y l IHl]; intros ti j Hs Hj; [done|].
      destruct Hs as [Hy Hs]. destruct j as [|j].
      * injection Hj as ->. done.
      * simpl in Hj. specialize (IHl y j Hs Hj). lia.
    + simpl in Hi. apply (IH x i j); [done|lia|done..].
Qed.

Lemma interrupt_or_not e : e = KeyboardInterrupt ∨ e ≠ KeyboardInterrupt.
Proof. destruct e; auto. Qed.

Section Loop.
Variable html_parser : string → outcome soup.

(** *** One pass, by what the check answers *)

Lemma iteration_miss cfg t w :
  misses html_parser cfg w →
  iteration html_parser w (monitor_at cfg t)
  = (check_trace html_parser cfg w ++ [Log INFO "未检测到折扣信息"]
       ++ cycle_end_trace cfg w,
     monitor_at cfg t, cycle_end_result cfg w).
Proof.
  intros H. rewrite (iteration_at _ _ _ _ _ _ (react_miss _ _ t _ H)).
  by rewrite <- List.app_assoc.
Qed.

Lemma iteration_cooldown cfg t w :
  detects html_parser cfg w → clock w - t ≤ 86400 →
  iteration html_parser w (monitor_at cfg t)
  = (check_trace html_parser cfg w
       ++ [Clock (clock w); Log INFO "检测到折扣，但仍在冷却期内"]
       ++ cycle_end_trace cfg w,
     monitor_at cfg t, cycle_end_result cfg w).
Proof.
  intros H Ht. rewrite (iteration_at _ _ _ _ _ _ (react_cooldown _ _ _ _ H Ht)).
  by rewrite <- List.app_assoc.
Qed.

Lemma iteration_sent cfg t w :
  detects html_parser cfg w → clock w - t > 86400 → smtp w = Returns tt →
  iteration html_parser w (monitor_at cfg t)
  = (check_trace html_parser cfg w
       ++ [Clock (clock w); Mail (receiver cfg) true; Log INFO "邮件发送成功"]
       ++ cycle_end_trace cfg w,
     monitor_at cfg (clock w), cycle_end_result cfg w).
Proof.
  intros H Ht Hs.
  rewrite (iteration_at _ _ _ _ _ _ (react_sent _ _ _ _ H Ht Hs)).
  by rewrite <- List.app_assoc.
Qed.

Lemma iteration_send_fails cfg t w e :
  detects html_parser cfg w → clock w - t > 86400 → smtp w = Raises e →
  e ≠ KeyboardInterrupt →
  iteration html_parser w (monitor_at cfg t)
  = (check_trace html_parser cfg w
       ++ ([Clock (clock w); Mail (receiver cfg) false] ++ mail_error e)
       ++ cycle_end_trace cfg w,
     monitor_at cfg t, cycle_end_result cfg w).
Proof.
  intros H Ht Hs He.
  pose proof (react_send_fails _ _ _ _ _ H Ht Hs) as Hr.
  assert (match e with KeyboardInterrupt => Raises e | _ => Returns tt end
          = Returns tt) as E by (by destruct e).
  rewrite E in Hr. rewrite (iteration_at _ _ _ _ _ _ Hr).
  by rewrite <- List.app_assoc.
Qed.

(** An exception out of lines 155 to 163 meets the handlers at once. *)
Lemma iteration_react_raises w self tr self' e :
  react html_parser w self = (tr, self', Raises e) →
  iteration html_parser w self =
    match on_exception w e with
    | Some k => let '(t', s', r) := k self' in (tr ++ t', s', r)
    | None => (tr, self', Raises e)
    end.
Proof.
  intros H. unfold iteration, attempt, try_except.
  unfold mbind, io_bind, bind at 1 2. by rewrite H.
Qed.

Lemma iteration_send_interrupted cfg t w :
  detects html_parser cfg w → clock w - t > 86400 →
  smtp w = Raises KeyboardInterrupt →
  iteration html_parser w (monitor_at cfg t)
  = (check_trace html_parser cfg w
       ++ [Clock (clock w); Mail (receiver cfg) false; Log INFO "用户中断监控"],
     monitor_at cfg t, Returns Break).
Proof.
  intros H Ht Hs.
  rewrite (iteration_react_raises _ _ _ _ _ (react_send_fails _ _ _ _ _ H Ht Hs)).
  simpl. by rewrite <- List.app_assoc.
Qed.

Lemma iteration_check_interrupted cfg t w :
  (check_discount html_parser w (GregoryMonitor_init cfg)).2
    = Raises KeyboardInterrupt →
  iteration html_parser w (monitor_at cfg t)
  = (check_trace html_parser cfg w ++ [Log INFO "用户中断监控"],
     monitor_at cfg t, Returns Break).
Proof.
  intros H.
  assert (react html_parser w (monitor_at cfg t)
          = (check_trace html_parser cfg w, monitor_at cfg t,
             Raises KeyboardInterrupt)) as Hr.
  { unfold react, mbind, io_bind, bind. by rewrite check_discount_at, H. }
  by rewrite (iteration_react_raises _ _ _ _ _ Hr).
Qed.

(** [check_discount] returns a truth value or is interrupted. *)
Lemma check_discount_cases cfg w :
  detects html_parser cfg w ∨ misses html_parser cfg w
  ∨ (check_discount html_parser w (GregoryMonitor_init cfg)).2
    = Raises KeyboardInterrupt.
Proof.
  unfold detects, misses. run_io.
  destruct (http w) as [html|[]]; simpl; auto.
  destruct (html_parser html) as [sp|[]]; simpl; auto.
  destruct (found_keywords _ _); auto.
Qed.

Lemma sent_of_quiet cfg w :
  mails_sent (check_trace html_parser cfg w) = 0%nat
  ∧ mail_attempts (check_trace html_parser cfg w) = 0%nat
  ∧ mails_sent (cycle_end_trace cfg w) = 0%nat
  ∧ mail_attempts (cycle_end_trace cfg w) = 0%nat.
Proof.
  unfold mails_sent, mail_attempts.
  rewrite !check_trace_quiet, !cycle_end_trace_quiet; done.
Qed.

(** What one pass does to [last_sent] and to the mails: nothing, or one
    mail goes out under a reading more than 86400 past [last_sent], which
    becomes the new [last_sent]. *)
Lemma pass_summary cfg t w d :
  let r := iteration html_parser w (monitor_at cfg t) in
  (r.1.2 = monitor_at cfg t ∧ deliveries d r.1.1 = [])
  ∨ (r.1.2 = monitor_at cfg (clock w) ∧ clock w - t > 86400
     ∧ smtp w = Returns tt ∧ detects html_parser cfg w
     ∧ deliveries d r.1.1 = [clock w]).
Proof.
  simpl.
  destruct (check_discount_cases cfg w) as [Hd|[Hm|Hi]].
  - destruct (decide (clock w - t > 86400)) as [Ht|Ht].
    + destruct (smtp w) as [[]|e] eqn:Hs.
      * right. rewrite (iteration_sent _ _ _ Hd Ht Hs). simpl.
        repeat split; try done.
        rewrite !deliveries_app, check_trace_deliveries. simpl.
        by rewrite cycle_end_trace_deliveries.
      * left. destruct (interrupt_or_not e) as [->|He].
        -- rewrite (iteration_send_interrupted _ _ _ Hd Ht Hs). simpl.
           split; [done|]. by rewrite deliveries_app, check_trace_deliveries.
        -- rewrite (iteration_send_fails _ _ _ _ Hd Ht Hs He). simpl.
           split; [done|].
           rewrite !deliveries_app, check_trace_deliveries. simpl.
           rewrite deliveries_app, cycle_end_trace_deliveries.
           by destruct e.
    + left. rewrite (iteration_cooldown _ _ _ Hd) by lia. simpl.
      split; [done|].
      rewrite !deliveries_app, check_trace_deliveries. simpl.
      by rewrite cycle_end_trace_deliveries.
  - left. rewrite (iteration_miss _ _ _ Hm). simpl. split; [done|].
    rewrite !deliveries_app, check_trace_deliveries. simpl.
    by rewrite cycle_end_trace_deliveries.
  - left. rewrite (iteration_check_interrupted _ _ _ Hi). simpl.
    split; [done|]. by rewrite deliveries_app, check_trace_deliveries.
Qed.

(** *** The loop *)

Lemma while_true_cons w rest self :
  while_true html_parser (w :: rest) self
  = match iteration html_parser w self with
    | (tr, self', Returns Again) =>
        let '(t2, s2, r) := while_true html_parser rest self' in
        (tr ++ t2, s2, r)
    | (tr, self', Returns Break) => (tr, self', Returns Returned)
    | (tr, self', Raises e) => (tr, self', Raises e)
    end.
Proof.
  cbn [while_true]. unfold mbind, io_bind, bind.
  destruct (iteration html_parser w self) as [[tr s] [[]|e]]; try done.
  simpl. by rewrite app_nil_r.
Qed.

(** The mails of a run go out under readings that lie more than 86400
    apart, the first one more than 86400 after the [last_sent] the loop
    starts with. *)
Lemma while_true_spaced cfg world : ∀ t d,
  spaced t (deliveries d (while_true html_parser world (monitor_at cfg t)).1.1).
Proof.
  induction world as [|w world IH]; intros t d; [done|].
  rewrite while_true_cons.
  pose proof (pass_summary cfg t w d) as Hp. simpl in Hp.
  destruct (iteration html_parser w (monitor_at cfg t)) as [[tr s] r].
  simpl in Hp.
  destruct r as [[]|e]; simpl.
  - destruct Hp as [[-> Hd]|(-> & Ht & _ & _ & Hd)].
    + specialize (IH t (last_clock d tr)).
      destruct (while_true html_parser world (monitor_at cfg t)) as [[t2 s2] r2].
      simpl in *. by rewrite deliveries_app, Hd.
    + specialize (IH (clock w) (last_clock d tr)).
      destruct (while_true html_parser world (monitor_at cfg (clock w)))
        as [[t2 s2] r2].
      simpl in *. rewrite deliveries_app, Hd. simpl. done.
  - destruct Hp as [[_ ->]|(_ & Ht & _ & _ & ->)]; simpl; [done|]. split; [lia|done].
  - destruct Hp as [[_ ->]|(_ & Ht & _ & _ & ->)]; simpl; [done|]. split; [lia|done].
Qed.

(** Cycles without a match send nothing and leave the monitor as it is. *)
Lemma while_true_idle cfg t ws :
  Forall (idle html_parser cfg) ws →
  ∃ tr, while_true html_parser ws (monitor_at cfg t)
        = (tr, monitor_at cfg t, Returns Looping)
        ∧ mails_sent tr = 0%nat ∧ mail_attempts tr = 0%nat.
Proof.
  induction 1 as [|w ws [Hm Hr] _ (tr & IH & Hs & Ha)].
  - by exists [].
  - rewrite while_true_cons, (iteration_miss _ _ _ Hm),
      (cycle_end_resumes _ _ Hr), IH.
    eexists. split; [done|].
    destruct (sent_of_quiet cfg w) as (H1 & H2 & H3 & H4).
    unfold mails_sent, mail_attempts in *.
    rewrite !count_app, ?count_cons, H1, H2, H3, H4, Hs, Ha. done.
Qed.

Lemma while_true_misses cfg t ws :
  Forall (misses html_parser cfg) ws →
  mails_sent (while_true html_parser ws (monitor_at cfg t)).1.1 = 0%nat
  ∧ mail_attempts (while_true html_parser ws (monitor_at cfg t)).1.1 = 0%nat.
Proof.
  induction 1 as [|w ws Hm _ [Hs Ha]]; [done|].
  rewrite while_true_cons, (iteration_miss _ _ _ Hm).
  destruct (sent_of_quiet cfg w) as (H1 & H2 & H3 & H4).
  destruct (while_true html_parser ws (monitor_at cfg t)) as [[t2 s2] r2].
  simpl in Hs, Ha. unfold mails_sent, mail_attempts in *.
  destruct (cycle_end_result cfg w) as [[]|e]; simpl;
    rewrite !count_app, !count_cons, ?H1, ?H2, ?H3, ?H4, ?Hs, ?Ha; done.
Qed.
End Loop.

(** ** Start-up *)

Lemma validate_loop_filter its errors :
  validate_loop its errors
  = errors ++ ((λ fv, cannot_be_empty fv.1)
                 <$> filter (λ fv, truthy fv.2 = false) its).
Proof.
  revert errors. induction its as [|[field v] its IH]; intros errors.
  - by rewrite app_nil_r.
  - cbn [validate_loop]. rewrite IH, filter_cons. simpl.
    destruct (truthy v) eqn:Hv.
    + by rewrite decide_False by done.
    + rewrite decide_True by done. by rewrite fmap_cons, <- List.app_assoc.
Qed.

Lemma validate_missing cfg :
  validate cfg = (λ fv, cannot_be_empty fv.1) <$> missing cfg.
Proof. unfold validate. by rewrite validate_loop_filter. Qed.

Lemma print_all_fmap errors : print_all errors = Print <$> errors.
Proof. induction errors as [|e errors IH]; [done|]. simpl. by rewrite IH. Qed.

Section Claims.
Import Str StrFacts SoupFacts.
Variable html_parser : string → outcome soup.

Lemma start_refused logs cfg world :
  missing cfg ≠ [] →
  start html_parser logs cfg world = (Print <$> validate cfg, Returns Returned).
Proof.
  intros Hm. unfold start. rewrite <- print_all_fmap.
  destruct (validate cfg) as [|e errs] eqn:E; [|done].
  rewrite validate_missing in E. by destruct (missing cfg).
Qed.

Lemma start_accepted u cfg world :
  missing cfg = [] →
  start html_parser (Returns u) cfg world
  = let '(t, _, r) := run html_parser world (GregoryMonitor_init cfg) in (t, r).
Proof.
  intros Hm. unfold start. by rewrite validate_missing, Hm.
Qed.

Lemma start_without_logs e cfg world :
  missing cfg = [] →
  start html_parser (Raises e) cfg world = ([], Raises e).
Proof.
  intros Hm. unfold start. by rewrite validate_missing, Hm.
Qed.

(** C9. A zero in [check_interval] or in [smtp_port] counts as an empty
    field: [validate] reports it under the name of the field, whatever the
    other fields hold, and the monitor is not started. *)
Theorem zero_is_missing logs cfg world :
  check_interval cfg = 0 ∨ smtp_port cfg = 0 →
  (check_interval cfg = 0 → cannot_be_empty "check_interval" ∈ validate cfg)
  ∧ (smtp_port cfg = 0 → cannot_be_empty "smtp_port" ∈ validate cfg)
  ∧ validate cfg ≠ []
  ∧ start html_parser logs cfg world
    = (Print <$> validate cfg, Returns Returned).
Proof.
  intros H.
  assert (check_interval cfg = 0 → ("check_interval", VInt 0) ∈ missing cfg) as H1.
  { intros E. apply list_elem_of_filter. split; [done|].
    unfold items. rewrite E. apply elem_of_cons. right.
    apply elem_of_cons. by left. }
  assert (smtp_port cfg = 0 → ("smtp_port", VInt 0) ∈ missing cfg) as H2.
  { intros E. apply list_elem_of_filter. split; [done|].
    unfold items. rewrite E. do 3 (apply elem_of_cons; right).
    apply elem_of_cons. by left. }
  assert (missing cfg ≠ []) as Hm.
  { destruct H as [E|E]; [apply H1 in E|apply H2 in E];
      intros Hnil; rewrite Hnil in E; by apply elem_of_nil in E. }
  rewrite validate_missing. repeat split.
  - intros E. apply (list_elem_of_fmap_2 (λ fv, cannot_be_empty fv.1) _ _ (H1 E)).
  - intros E. apply (list_elem_of_fmap_2 (λ fv, cannot_be_empty fv.1) _ _ (H2 E)).
  - by destruct (missing cfg).
  - rewrite <- validate_missing. by apply start_refused.
Qed.


(** ** Detection *)

Lemma found_keywords_spec kws text kw :
  kw ∈ found_keywords kws text ↔ kw ∈ kws ∧ contains kw text = true.
Proof.
  unfold found_keywords. rewrite list_elem_of_filter, elem_of_elements. tauto.
Qed.

(** C7, as the code has it.  On a page that was fetched and parsed,
    [check_discount] works out the list of the keywords that occur in the
    text of the page, each keyword of the set once; it writes the list to
    the log when it is not empty, and it returns only whether the list is
    empty or not. *)
Theorem check_discount_result cfg t w html sp :
  http w = Returns html → html_parser html = Returns sp →
  ∃ found,
    (∀ kw, kw ∈ found ↔
           kw ∈ keywords (monitor_at cfg t)
           ∧ contains kw (page_text sp) = true)
    ∧ NoDup found
    ∧ check_discount html_parser w (monitor_at cfg t)
      = (HttpGet (website_url cfg) :: log_found found,
         monitor_at cfg t, Returns (bool_decide (found ≠ []))).
Proof.
  intros Hh Hp.
  exists (found_keywords (keywords (monitor_at cfg t)) (page_text sp)).
  split; [intros kw; apply found_keywords_spec|]. split.
  - apply NoDup_filter, NoDup_elements.
  - rewrite (check_discount_page _ _ _ _ _ Hh Hp).
    by destruct (found_keywords _ _).
Qed.

(** C10. [off] is a keyword and the test is a plain substring test: a page
    with a visible string that holds a word with [off] inside it is
    reported as a match, with [off] among the keywords found. *)
Theorem off_inside_a_word cfg t w html sp s word :
  http w = Returns html → html_parser html = Returns sp →
  visible_in sp s →
  contains "off" word = true → contains word (lower s) = true →
  ∃ found,
    "off" ∈ found
    ∧ check_discount html_parser w (monitor_at cfg t)
      = ([HttpGet (website_url cfg);
          Log INFO ("发现折扣关键词：" +:+ join ", " found)],
         monitor_at cfg t, Returns true).
Proof.
  intros Hh Hp Hv Hw Hs. rewrite (check_discount_page _ _ _ _ _ Hh Hp).
  exists (found_keywords (keywords (monitor_at cfg t)) (page_text sp)).
  assert ("off" ∈ found_keywords (keywords (monitor_at cfg t)) (page_text sp))
    as Hin.
  { apply found_keywords_spec. split.
    - apply elem_of_elements, list_elem_of_In.
      vm_compute. tauto.
    - apply (visible_word_in_text sp s); [done..|].
      by apply (contains_trans "off" word). }
  split; [done|].
  destruct (found_keywords _ _); [by apply elem_of_nil in Hin | done].
Qed.


(** ** The cooldown *)

Lemma init_is_monitor_at cfg : GregoryMonitor_init cfg = monitor_at cfg 0.
Proof. reflexivity. Qed.

Lemma pass_mail_attempts cfg t w :
  detects html_parser cfg w →
  mail_attempts (iteration html_parser w (monitor_at cfg t)).1.1
  = if bool_decide (clock w - t > 86400) then 1%nat else 0%nat.
Proof.
  intros Hd. destruct (sent_of_quiet html_parser cfg w) as (_ & H2 & _ & H4).
  unfold mail_attempts in *. case_bool_decide as Ht.
  - destruct (smtp w) as [[]|e] eqn:Hs.
    + rewrite (iteration_sent _ _ _ _ Hd Ht Hs). simpl.
      by rewrite !count_app, !count_cons, H2, H4.
    + destruct (interrupt_or_not e) as [->|He].
      * rewrite (iteration_send_interrupted _ _ _ _ Hd Ht Hs). simpl.
        by rewrite !count_app, !count_cons, H2.
      * rewrite (iteration_send_fails _ _ _ _ _ Hd Ht Hs He). simpl.
        destruct e; repeat (rewrite count_app || rewrite count_cons);
          by rewrite H2, H4.
  - rewrite (iteration_cooldown _ _ _ _ Hd) by lia. simpl.
    by rewrite !count_app, !count_cons, H2, H4.
Qed.

(** C4. A fresh monitor has [last_sent = 0].  In a cycle that detects a
    match it calls [send_email] exactly when the clock reads more than
    86400; at a reading of 86400 or less the match is logged as being in
    the cooldown and nothing is sent. *)
Theorem first_match_notifies cfg w :
  detects html_parser cfg w →
  last_sent (GregoryMonitor_init cfg) = 0
  ∧ (mail_attempts (iteration html_parser w (GregoryMonitor_init cfg)).1.1
     = 1%nat ↔ clock w > 86400)
  ∧ (clock w ≤ 86400 →
     iteration html_parser w (GregoryMonitor_init cfg)
     = (check_trace html_parser cfg w
          ++ [Clock (clock w); Log INFO "检测到折扣，但仍在冷却期内"]
          ++ cycle_end_trace cfg w,
        GregoryMonitor_init cfg, cycle_end_result cfg w)).
Proof.
  intros Hd. split; [done|]. rewrite init_is_monitor_at. split.
  - rewrite (pass_mail_attempts _ _ _ Hd). case_bool_decide; split; try done; lia.
  - intros Ht. apply (iteration_cooldown _ _ _ _ Hd). lia.
Qed.

(** C3. When a match is detected, the cooldown is over and [send_email]
    reports a failure, the pass logs the failure and leaves [last_sent] as
    it was.  If the loop goes on, the next cycle that detects a match, at
    a clock reading that is not earlier, calls [send_email] again.  In any
    pass [last_sent] changes only when the mail went out, and then to the
    clock reading of that pass. *)
Theorem failed_send_is_retried cfg t w e :
  detects html_parser cfg w → clock w - t > 86400 →
  smtp w = Raises e → e ≠ KeyboardInterrupt →
  iteration html_parser w (monitor_at cfg t)
  = (check_trace html_parser cfg w
       ++ ([Clock (clock w); Mail (receiver cfg) false] ++ mail_error e)
       ++ cycle_end_trace cfg w,
     monitor_at cfg t, cycle_end_result cfg w)
  ∧ (∀ mid w',
       resumes cfg w = true → Forall (idle html_parser cfg) mid →
       detects html_parser cfg w' → clock w ≤ clock w' →
       mail_attempts
         (while_true html_parser (w :: mid ++ [w']) (monitor_at cfg t)).1.1
       = 2%nat)
  ∧ (∀ t0 w0,
       last_sent (iteration html_parser w0 (monitor_at cfg t0)).1.2 ≠ t0 →
       smtp w0 = Returns tt
       ∧ last_sent (iteration html_parser w0 (monitor_at cfg t0)).1.2 = clock w0
       ∧ mails_sent (iteration html_parser w0 (monitor_at cfg t0)).1.1 = 1%nat).
Proof.
  intros Hd Ht Hs He.
  pose proof (iteration_send_fails _ _ _ _ _ Hd Ht Hs He) as Hit.
  split; [done|]. split.
  - intros mid w' Hr Hmid Hd' Hc.
    pose proof (pass_mail_attempts cfg t w Hd) as Ha.
    rewrite while_true_cons.
    destruct (iteration html_parser w (monitor_at cfg t)) as [[tr1 s1] r1].
    injection Hit as _ -> ->. rewrite (cycle_end_resumes _ _ Hr).
    destruct (while_true_idle _ cfg t mid Hmid) as (tr & Hw & _ & Hz).
    rewrite (while_true_app _ _ [w'] _ _ _ Hw), while_true_cons.
    pose proof (pass_mail_attempts cfg t w' Hd') as Ha'.
    rewrite bool_decide_eq_true_2 in Ha, Ha' by lia.
    destruct (iteration html_parser w' (monitor_at cfg t)) as [[t2 s2] r2].
    simpl in Ha, Ha'. destruct r2 as [[]|?]; simpl;
      unfold mail_attempts in *; rewrite ?count_app, Ha, Hz, Ha'; done.
  - intros t0 w0 Hne.
    pose proof (pass_summary html_parser cfg t0 w0 0) as Hp. simpl in Hp.
    destruct (iteration html_parser w0 (monitor_at cfg t0)) as [[tr' s'] r'].
    simpl in *. destruct Hp as [[-> _]|(-> & _ & Hs0 & _ & Hdel)]; [done|].
    repeat split; try done.
    by rewrite <- (deliveries_length 0), Hdel.
Qed.

Lemma match_then_misses cfg t w post :
  detects html_parser cfg w → smtp w = Returns tt →
  Forall (misses html_parser cfg) post →
  mails_sent (while_true html_parser (w :: post) (monitor_at cfg t)).1.1
  = if bool_decide (clock w - t > 86400) then 1%nat else 0%nat.
Proof.
  intros Hd Hs Hpost. rewrite while_true_cons.
  destruct (sent_of_quiet html_parser cfg w) as (H1 & _ & H3 & _).
  unfold mails_sent in *. case_bool_decide as Ht.
  - rewrite (iteration_sent _ _ _ _ Hd Ht Hs).
    destruct (while_true_misses _ cfg (clock w) post Hpost) as [Hz _].
    destruct (while_true html_parser post (monitor_at cfg (clock w)))
      as [[t2 s2] r2].
    simpl in Hz. unfold mails_sent in Hz.
    destruct (cycle_end_result cfg w) as [[]|?]; simpl;
      rewrite !count_app, !count_cons, ?H1, ?H3, ?Hz; done.
  - rewrite (iteration_cooldown _ _ _ _ Hd) by lia.
    destruct (while_true_misses _ cfg t post Hpost) as [Hz _].
    destruct (while_true html_parser post (monitor_at cfg t)) as [[t2 s2] r2].
    simpl in Hz. unfold mails_sent in Hz.
    destruct (cycle_end_result cfg w) as [[]|?]; simpl;
      rewrite !count_app, !count_cons, ?H1, ?H3, ?Hz; done.
Qed.

Lemma run_trace world self :
  (run html_parser world self).1.1
  = Log INFO "启动折扣监控服务" :: (while_true html_parser world self).1.1.
Proof.
  unfold run, logging, call, mbind, io_bind, bind.
  by destruct (while_true html_parser world self) as [[t s] r].
Qed.

(** C1, as the code has it.  In every run the mails that went out did so
    under clock readings that lie more than 86400 apart, however many
    cycles detected a match.  In a run from a fresh monitor in which two
    cycles detect a match and every other cycle detects none, with the
    first match at a reading above 86400 and both SMTP sessions going
    through: one mail is sent when the two readings are 86400 or less
    apart, two when they are more than 86400 apart. *)
Theorem cooldown_invariant cfg :
  (∀ world i j ti tj,
     (i < j)%nat →
     deliveries 0 (run html_parser world (GregoryMonitor_init cfg)).1.1 !! i
       = Some ti →
     deliveries 0 (run html_parser world (GregoryMonitor_init cfg)).1.1 !! j
       = Some tj →
     tj - ti > 86400)
  ∧ (∀ world,
       length (deliveries 0 (run html_parser world (GregoryMonitor_init cfg)).1.1)
       = mails_sent (run html_parser world (GregoryMonitor_init cfg)).1.1)
  ∧ (∀ pre m1 mid m2 post,
       Forall (idle html_parser cfg) pre → Forall (idle html_parser cfg) mid →
       Forall (misses html_parser cfg) post →
       detects html_parser cfg m1 → detects html_parser cfg m2 →
       resumes cfg m1 = true →
       smtp m1 = Returns tt → smtp m2 = Returns tt →
       clock m1 > 86400 →
       mails_sent
         (run html_parser (pre ++ m1 :: mid ++ m2 :: post)
            (GregoryMonitor_init cfg)).1.1
       = if bool_decide (clock m2 - clock m1 > 86400) then 2%nat else 1%nat).
Proof.
  split; [|split].
  - intros world i j ti tj Hij Hi Hj. rewrite run_trace in Hi, Hj.
    simpl in Hi, Hj.
    apply (spaced_lookup 0 _ i j ti tj
             (while_true_spaced html_parser cfg world 0 0) Hij Hi Hj).
  - intros world. apply deliveries_length.
  - intros pre m1 mid m2 post Hpre Hmid Hpost Hd1 Hd2 Hr1 Hs1 Hs2 Ht1.
    rewrite run_trace, init_is_monitor_at.
    destruct (while_true_idle _ cfg 0 pre Hpre) as (tr0 & Hw0 & Hz0 & _).
    rewrite (while_true_app _ _ _ _ _ _ Hw0), while_true_cons.
    rewrite (iteration_sent _ _ _ _ Hd1) by (done || lia).
    rewrite (cycle_end_resumes _ _ Hr1).
    destruct (while_true_idle _ cfg (clock m1) mid Hmid) as (tr1 & Hw1 & Hz1 & _).
    rewrite (while_true_app _ _ _ _ _ _ Hw1).
    pose proof (match_then_misses cfg (clock m1) m2 post Hd2 Hs2 Hpost) as Hm.
    destruct (while_true html_parser (m2 :: post) (monitor_at cfg (clock m1)))
      as [[t2 s2] r2].
    simpl in Hm. simpl.
    destruct (sent_of_quiet html_parser cfg m1) as (H1 & _ & H3 & _).
    unfold mails_sent in *.
    rewrite !count_cons, !count_app, !count_cons, Hz0, H1, H3, Hz1, Hm. simpl.
    by case_bool_decide.
Qed.

(** ** Faults *)

End Claims.


(** ** Detection and faults, as the code has them *)

Section Revised.
Import Str StrFacts SoupFacts.
Variable html_parser : string → outcome soup.



(** C5, as the code has it.  A request that fails, or a page the parser
    refuses, with any exception of class [Exception]: [check_discount]
    logs one error line and returns [False], and the pass logs that
    nothing was found.  When the configured interval is not negative and
    the sleep returns, the pass sleeps for that interval and the loop runs
    the next cycle with the monitor unchanged.  When the interval is
    negative, [time.sleep] refuses it and the pass sleeps 300 seconds in
    the handler instead before the next cycle. *)
Theorem fetch_fault_then_sleep cfg t w e :
  e ≠ KeyboardInterrupt →
  http w = Raises e
  ∨ (∃ html, http w = Returns html ∧ html_parser html = Raises e) →
  (∃ msg, caught e = [Log ERROR msg])
  ∧ check_discount html_parser w (monitor_at cfg t)
    = (HttpGet (website_url cfg) :: caught e, monitor_at cfg t, Returns false)
  ∧ (0 ≤ check_interval cfg → nap w = Returns tt →
     iteration html_parser w (monitor_at cfg t)
     = ((HttpGet (website_url cfg) :: caught e)
          ++ [Log INFO "未检测到折扣信息"; Sleep (check_interval cfg)],
        monitor_at cfg t, Returns Again)
     ∧ ∀ rest,
         while_true html_parser (w :: rest) (monitor_at cfg t)
         = let '(t2, s2, r) := while_true html_parser rest (monitor_at cfg t) in
           (((HttpGet (website_url cfg) :: caught e)
               ++ [Log INFO "未检测到折扣信息"; Sleep (check_interval cfg)])
              ++ t2, s2, r))
  ∧ (check_interval cfg < 0 → recovery w = Returns tt →
     iteration html_parser w (monitor_at cfg t)
     = ((HttpGet (website_url cfg) :: caught e)
          ++ [Log INFO "未检测到折扣信息"; Sleep (check_interval cfg);
              Log ERROR "主循环异常：sleep length must be non-negative";
              Sleep 300],
        monitor_at cfg t, Returns Again)).
Proof.
  intros He Hf.
  assert (check_discount html_parser w (monitor_at cfg t)
          = (HttpGet (website_url cfg) :: caught e, monitor_at cfg t,
             Returns false)) as Hc.
  { destruct Hf as [Hh|(html & Hh & Hp)].
    - exact (check_discount_fetch_fails html_parser w (monitor_at cfg t) e Hh He).
    - exact (check_discount_parse_fails html_parser w (monitor_at cfg t)
               html e Hh Hp He). }
  assert (misses html_parser cfg w) as Hm.
  { unfold misses. by rewrite <- check_discount_last_sent with (t := t), Hc. }
  assert (check_trace html_parser cfg w = HttpGet (website_url cfg) :: caught e)
    as Htr.
  { pose proof (check_discount_at html_parser cfg t w) as Hat.
    rewrite Hc in Hat. by injection Hat as <-. }
  split; [destruct e; by eauto|]. split; [exact Hc|].
  assert (0 ≤ check_interval cfg → nap w = Returns tt →
          cycle_end_trace cfg w = [Sleep (check_interval cfg)]
          ∧ cycle_end_result cfg w = Returns Again) as Hgood.
  { intros Hi Hn. unfold cycle_end_trace, cycle_end_result. run_io.
    by rewrite Hn, (proj2 (Z.ltb_ge _ _) Hi). }
  assert (check_interval cfg < 0 → recovery w = Returns tt →
          cycle_end_trace cfg w
          = [Sleep (check_interval cfg);
             Log ERROR "主循环异常：sleep length must be non-negative";
             Sleep 300]
          ∧ cycle_end_result cfg w = Returns Again) as Hbad.
  { intros Hi Hr. unfold cycle_end_trace, cycle_end_result. run_io.
    by rewrite Hr, (proj2 (Z.ltb_lt _ _) Hi). }
  split.
  - intros Hi Hn. destruct (Hgood Hi Hn) as [Ht Hr].
    assert (iteration html_parser w (monitor_at cfg t)
            = ((HttpGet (website_url cfg) :: caught e)
                 ++ [Log INFO "未检测到折扣信息"; Sleep (check_interval cfg)],
               monitor_at cfg t, Returns Again)) as Hit
      by (by rewrite (iteration_miss _ _ _ _ Hm), Htr, Ht, Hr).
    split; [exact Hit|]. intros rest. by rewrite while_true_cons, Hit.
  - intros Hi Hr. destruct (Hbad Hi Hr) as [Ht Hres].
    by rewrite (iteration_miss _ _ _ _ Hm), Htr, Ht, Hres.
Qed.

(** X1. [check_discount] sends one request, leaves the monitor as it is and
    never raises an [Exception]: it returns a truth value or is left by a
    [KeyboardInterrupt]. *)
Theorem check_discount_never_raises w self :
  ∃ tr,
    (check_discount html_parser w self).1
    = (HttpGet (website_url (config self)) :: tr, self)
    ∧ count is_get tr = 0%nat
    ∧ ((∃ b, (check_discount html_parser w self).2 = Returns b)
       ∨ (check_discount html_parser w self).2 = Raises KeyboardInterrupt).
Proof.
  run_io. destruct (http w) as [html|[]]; simpl;
    try (eexists; split; [reflexivity|]; split; [reflexivity|]; eauto; fail).
  destruct (html_parser html) as [sp|[]]; simpl;
    try (eexists; split; [reflexivity|]; split; [reflexivity|]; eauto; fail).
  destruct (found_keywords _ _); simpl;
    eexists; (split; [reflexivity|]); (split; [reflexivity|]); eauto.
Qed.

End Revised.

(** ** Start-up, as the code has it *)

Lemma falsy_item name v rest :
  (λ fv : string * value, cannot_be_empty fv.1)
    <$> filter (λ fv, truthy fv.2 = false) ((name, v) :: rest)
  = (if truthy v then [] else [cannot_be_empty name])
      ++ ((λ fv : string * value, cannot_be_empty fv.1)
            <$> filter (λ fv, truthy fv.2 = false) rest).
Proof.
  rewrite filter_cons. simpl. destruct (truthy v).
  - by rewrite decide_False.
  - by rewrite decide_True.
Qed.

Lemma falsy_string name s :
  (if truthy (VStr s) then [] else [cannot_be_empty name])
  = (λ f, "配置项 " +:+ f +:+ " 不能为空")
      <$> (if bool_decide (s = "") then [name] else []).
Proof. by destruct s. Qed.

Lemma falsy_number name n :
  (if truthy (VInt n) then [] else [cannot_be_empty name])
  = (λ f, "配置项 " +:+ f +:+ " 不能为空")
      <$> (if bool_decide (n = 0) then [name] else []).
Proof.
  simpl. destruct (Z.eqb_spec n 0) as [->|Hn]; simpl.
  - reflexivity.
  - by rewrite bool_decide_eq_false_2.
Qed.

(** [validate] names the empty fields, one line each, in the order of the
    class. *)
Lemma validate_empty_fields cfg :
  validate cfg = (λ f, "配置项 " +:+ f +:+ " 不能为空") <$> empty_fields cfg.
Proof.
  rewrite validate_missing. unfold missing, items, empty_fields.
  rewrite !falsy_item, !falsy_string, !falsy_number, filter_nil, !fmap_app.
  by rewrite fmap_nil, app_nil_r.
Qed.

Lemma empty_fields_missing cfg : empty_fields cfg = [] ↔ missing cfg = [].
Proof.
  pose proof (validate_empty_fields cfg) as H1.
  rewrite validate_missing in H1. split; intros H; rewrite H in H1.
  - by destruct (missing cfg).
  - by destruct (empty_fields cfg).
Qed.

Section Startup.
Import Str StrFacts SoupFacts.
Variable html_parser : string → outcome soup.
Variable int_of_str : string → outcome Z.

Lemma check_trace_head cfg w :
  ∃ tr, check_trace html_parser cfg w = HttpGet (website_url cfg) :: tr.
Proof.
  unfold check_trace. run_io. destruct (http w) as [html|[]]; simpl; eauto.
  destruct (html_parser html) as [sp|[]]; simpl; eauto.
  destruct (found_keywords _ _); eauto.
Qed.

(** Every pass starts with the request. *)
Lemma iteration_head cfg t w :
  ∃ tr, (iteration html_parser w (monitor_at cfg t)).1.1
        = HttpGet (website_url cfg) :: tr.
Proof.
  destruct (check_trace_head cfg w) as [tr0 Htr].
  destruct (check_discount_cases html_parser cfg w) as [Hd|[Hm|Hi]].
  - destruct (decide (clock w - t > 86400)) as [Ht|Ht].
    + destruct (smtp w) as [[]|e] eqn:Hs.
      * rewrite (iteration_sent _ _ _ _ Hd Ht Hs), Htr. cbn [fst]. eauto.
      * destruct (interrupt_or_not e) as [->|He].
        -- rewrite (iteration_send_interrupted _ _ _ _ Hd Ht Hs), Htr.
           cbn [fst]. eauto.
        -- rewrite (iteration_send_fails _ _ _ _ _ Hd Ht Hs He), Htr.
           cbn [fst]. eauto.
    + rewrite (iteration_cooldown _ _ _ _ Hd) by lia. rewrite Htr.
      cbn [fst]. eauto.
  - rewrite (iteration_miss _ _ _ _ Hm), Htr. cbn [fst]. eauto.
  - rewrite (iteration_check_interrupted _ _ _ _ Hi), Htr. cbn [fst]. eauto.
Qed.

Lemma run_head cfg w rest :
  ∃ tr, (run html_parser (w :: rest) (GregoryMonitor_init cfg)).1.1
        = Log INFO "启动折扣监控服务" :: HttpGet (website_url cfg) :: tr.
Proof.
  rewrite run_trace, init_is_monitor_at, while_true_cons.
  destruct (iteration_head cfg 0 w) as [tr Htr].
  destruct (iteration html_parser w (monitor_at cfg 0)) as [[t1 s1] r1].
  cbn [fst] in Htr. subst t1.
  destruct r1 as [[]|e]; cbn [fst]; [|eauto..].
  destruct (while_true html_parser rest s1) as [[t2 s2] r2]. cbn [fst]. eauto.
Qed.

(** C6, as the code has it.  For an environment from which [from_env]
    builds a configuration: a field is empty when it holds the empty
    string or the number 0.  [validate] returns the line
    [配置项 <field> 不能为空] for each empty field, in the order of the
    class.  When some field is empty, [main] prints these lines and
    returns: nothing else happens, no request, no mail, no sleep.  When no
    field is empty, [validate] returns no error and [main] builds the
    monitor: if the logging set-up fails [main] is left by its exception,
    otherwise [main] is [run], which logs the start-up line and sends the
    request of the first cycle to the configured address. *)
Theorem startup_validation dotenv environ logs cfg world :
  from_env int_of_str dotenv environ = Returns cfg →
  validate cfg = (λ f, "配置项 " +:+ f +:+ " 不能为空") <$> empty_fields cfg
  ∧ (empty_fields cfg ≠ [] →
     main html_parser int_of_str dotenv environ logs world
     = ((λ f, Print ("配置项 " +:+ f +:+ " 不能为空")) <$> empty_fields cfg,
        Returns Returned))
  ∧ (empty_fields cfg = [] →
     validate cfg = []
     ∧ (∀ e, logs = Raises e →
             main html_parser int_of_str dotenv environ logs world
             = ([], Raises e))
     ∧ (∀ u, logs = Returns u →
             main html_parser int_of_str dotenv environ logs world
             = (let '(t, _, r) :=
                  run html_parser world (GregoryMonitor_init cfg) in (t, r))
             ∧ ∀ w rest, world = w :: rest →
                 ∃ tr,
                   (main html_parser int_of_str dotenv environ logs world).1
                   = Log INFO "启动折扣监控服务"
                       :: HttpGet (website_url cfg) :: tr)).
Proof.
  intros He. split; [apply validate_empty_fields|]. unfold main. rewrite He.
  split.
  - intros Hm. rewrite start_refused.
    + by rewrite validate_empty_fields, <- list_fmap_compose.
    + intros Hnil. by apply Hm, empty_fields_missing.
  - intros Hm. pose proof (proj1 (empty_fields_missing cfg) Hm) as Hmiss.
    split; [by rewrite validate_empty_fields, Hm|]. split.
    + intros e ->. by apply start_without_logs.
    + intros u ->. rewrite (start_accepted _ _ _ _ Hmiss). split; [reflexivity|].
      intros w rest ->. destruct (run_head cfg w rest) as [tr Htr].
      destruct (run html_parser (w :: rest) (GregoryMonitor_init cfg))
        as [[t s] r].
      cbn [fst] in *. by exists tr.
Qed.
End Startup.

(** ** More on the methods *)

Section More.
Import Str StrFacts SoupFacts.
Variable html_parser : string → outcome soup.

(** X2. [send_email] opens one SMTP session and leaves the monitor as it
    is.  It returns [True] exactly when the session went through; an
    [Exception] in the session gives [False] and one error line; only a
    [KeyboardInterrupt] leaves it. *)
Theorem send_email_result w self :
  (send_email w self).1.2 = self
  ∧ mail_attempts (send_email w self).1.1 = 1%nat
  ∧ ((send_email w self).2 = Returns true ↔ ∃ u, smtp w = Returns u)
  ∧ (∀ e, smtp w = Raises e → e ≠ KeyboardInterrupt →
          send_email w self
          = (Mail (receiver (config self)) false :: mail_error e, self,
             Returns false))
  ∧ (∀ e, (send_email w self).2 = Raises e →
          e = KeyboardInterrupt ∧ smtp w = Raises KeyboardInterrupt).
Proof.
  run_io. destruct (smtp w) as [[]|[]] eqn:Hs; simpl;
    (split; [done|]); (split; [done|]); (split; [split; [eauto|]|]);
    try done; try (by intros [? ?]); split; try done;
    try (intros e [= <-]; done); intros e [= <-] He; done.
Qed.

(** X3. What a pass has assigned stays assigned when the sleep at its end
    fails: the mail went out and [last_sent] holds the reading of the pass,
    the handler logs the exception of the sleep, waits 300 seconds and the
    loop goes on. *)
Theorem sent_then_sleep_fails cfg t w e :
  detects html_parser cfg w → clock w - t > 86400 → smtp w = Returns tt →
  0 ≤ check_interval cfg → nap w = Raises e → e ≠ KeyboardInterrupt →
  recovery w = Returns tt →
  iteration html_parser w (monitor_at cfg t)
  = (check_trace html_parser cfg w
       ++ [Clock (clock w); Mail (receiver cfg) true; Log INFO "邮件发送成功";
           Sleep (check_interval cfg);
           Log ERROR ("主循环异常：" +:+ str_of e); Sleep 300],
     monitor_at cfg (clock w), Returns Again).
Proof.
  intros Hd Ht Hs Hi Hn He Hr. rewrite (iteration_sent _ _ _ _ Hd Ht Hs).
  unfold cycle_end_trace, cycle_end_result. run_io.
  rewrite Hn, Hr. rewrite (proj2 (Z.ltb_ge _ _) Hi). by destruct e.
Qed.

(** X4. An interrupt inside the body of the [try] ends the loop in order:
    during the request, the shutdown line is logged, [run] returns and no
    later cycle is run; during the sleep at the end of a pass, the pass
    ends with the shutdown line and [break]. *)
Theorem interrupt_in_try_breaks cfg t w :
  (http w = Raises KeyboardInterrupt →
   ∀ rest,
     run html_parser (w :: rest) (monitor_at cfg t)
     = ([Log INFO "启动折扣监控服务"; HttpGet (website_url cfg);
         Log INFO "用户中断监控"],
        monitor_at cfg t, Returns Returned))
  ∧ (0 ≤ check_interval cfg → nap w = Raises KeyboardInterrupt →
     cycle_end w (monitor_at cfg t)
     = ([Sleep (check_interval cfg); Log INFO "用户中断监控"],
        monitor_at cfg t, Returns Break)).
Proof.
  split.
  - intros Hh rest. unfold run, logging, call, mbind, io_bind, bind.
    rewrite while_true_cons. run_io. by rewrite Hh.
  - intros Hi Hn. run_io. by rewrite Hn, (proj2 (Z.ltb_ge _ _) Hi).
Qed.

(** X5. A negative interval is no empty field for [validate]; with it every
    pass ends in the handler: [time.sleep] refuses the length, the error is
    logged and the loop waits 300 seconds instead. *)
Theorem negative_interval cfg t w :
  check_interval cfg < 0 →
  (∀ v, ("check_interval", v) ∉ missing cfg)
  ∧ cycle_end w (monitor_at cfg t)
    = ([Sleep (check_interval cfg);
        Log ERROR "主循环异常：sleep length must be non-negative";
        Sleep 300],
       monitor_at cfg t,
       match recovery w with
       | Returns _ => Returns Again
       | Raises e => Raises e
       end).
Proof.
  intros Hi. split.
  - intros v [Hv Hin]%list_elem_of_filter. simpl in Hv.
    unfold items in Hin. rewrite !elem_of_cons in Hin.
    destruct Hin as [H|[H|[H|[H|[H|[H|[H|[H|[H|H]]]]]]]]];
      try (by apply elem_of_nil in H); try discriminate H.
    injection H as ->. simpl in Hv. apply negb_false_iff, Z.eqb_eq in Hv. lia.
  - run_io. rewrite (proj2 (Z.ltb_lt _ _) Hi). simpl. by destruct (recovery w).
Qed.

End More.

(** ** More on the configuration *)

Lemma nonempty_true s : Str.nonempty s = true ↔ s ≠ "".
Proof. destruct s; simpl; split; congruence. Qed.

Lemma nonzero_true n : negb (n =? 0) = true ↔ n ≠ 0.
Proof. rewrite negb_true_iff, Z.eqb_neq. tauto. Qed.

Lemma filter_nil_Forall {A} (P : A → Prop) `{∀ x, Decision (P x)} (l : list A) :
  filter P l = [] ↔ Forall (λ x, ¬ P x) l.
Proof.
  induction l as [|x l IH]; [by split; [constructor|]|].
  rewrite filter_cons, Forall_cons. destruct (decide (P x)) as [Hx|Hx].
  - split; [discriminate | tauto].
  - rewrite IH. tauto.
Qed.

(** X6. [validate] returns no error exactly when the seven strings are not
    empty and the two integers are not zero. *)
Theorem validate_passes_iff cfg :
  validate cfg = [] ↔
    website_url cfg ≠ "" ∧ check_interval cfg ≠ 0 ∧ smtp_server cfg ≠ ""
    ∧ smtp_port cfg ≠ 0 ∧ email_user cfg ≠ "" ∧ email_password cfg ≠ ""
    ∧ sender cfg ≠ "" ∧ receiver cfg ≠ "" ∧ user_agent cfg ≠ "".
Proof.
  rewrite validate_missing.
  assert (∀ l : list (string * value),
            (λ fv, cannot_be_empty fv.1) <$> l = [] ↔ l = []) as Hnil
    by (intros [|??]; split; done).
  rewrite Hnil. unfold missing.
  rewrite filter_nil_Forall. unfold items.
  rewrite !Forall_cons, Forall_nil. simpl.
  rewrite !not_false_iff_true, !nonempty_true, !nonzero_true. tauto.
Qed.


(** ** More on the environment *)





Section Environment.
Variable html_parser : string → outcome soup.
Variable int_of_str : string → outcome Z.



(** X8. When [int] refuses the text of [CHECK_INTERVAL], or accepts it (or
    the variable is not set) and refuses the text of [SMTP_PORT], [main]
    is left by that exception before anything is validated: nothing is
    printed and no monitor is built. *)
Theorem bad_number_stops_main dotenv environ logs world s e :
  int_of_str s = Raises e →
  load_dotenv dotenv environ !! "CHECK_INTERVAL" = Some s
  ∨ ((load_dotenv dotenv environ !! "CHECK_INTERVAL" = None
      ∨ ∃ s' n, load_dotenv dotenv environ !! "CHECK_INTERVAL" = Some s'
                ∧ int_of_str s' = Returns n)
     ∧ load_dotenv dotenv environ !! "SMTP_PORT" = Some s) →
  main html_parser int_of_str dotenv environ logs world = ([], Raises e).
Proof.
  intros He H. unfold main, from_env, getenv_int. cbn zeta.
  destruct H as [H|[[H1|(s' & n & H1 & Hn)] H2]].
  - by rewrite H, He.
  - by rewrite H1, H2, He.
  - by rewrite H1, Hn, H2, He.
Qed.
End Environment.

(** ** More on the text of the page *)

Section Text.
Import Str StrFacts SoupFacts.

Lemma is_upper_lower_char c : is_upper (lower_char c) = false.
Proof. by destruct c as [[] [] [] [] [] [] [] []]; vm_compute. Qed.

Lemma no_upper_lower s : no_upper (lower s) = true.
Proof.
  induction s as [|c s IH]; [done|]. simpl. by rewrite is_upper_lower_char, IH.
Qed.

Lemma startswith_no_upper kw t :
  startswith kw t = true → no_upper t = true → no_upper kw = true.
Proof.
  revert t. induction kw as [|k kw IH]; intros [|c t]; simpl; try done.
  intros [Hk Hs]%andb_prop [Hc Ht]%andb_prop.
  apply bool_decide_eq_true in Hk as ->. rewrite Hc. simpl. by apply (IH t).
Qed.

Lemma contains_no_upper kw t :
  contains kw t = true → no_upper t = true → no_upper kw = true.
Proof.
  induction t as [|c t IH].
  - rewrite contains_nil. apply startswith_no_upper.
  - cbn [contains]. intros [H|H]%orb_prop Ht.
    + by apply (startswith_no_upper kw (String c t)).
    + apply IH; [done|]. simpl in Ht. by apply andb_prop in Ht as [_ ?].
Qed.

(** X9. The text of the page has no capital letter left, so a keyword
    with a capital letter in it is never found, whatever the page. *)
Theorem capital_keyword_never_found kws sp kw :
  no_upper kw = false → kw ∉ found_keywords kws (page_text sp).
Proof.
  intros Hk [Hc _]%list_elem_of_filter.
  apply contains_no_upper in Hc; [by rewrite Hk in Hc|].
  apply no_upper_lower.
Qed.

End Text.

(** ** More on the loop *)

Section MoreLoop.
Variable html_parser : string → outcome soup.

Lemma pass_attempts_le cfg t w :
  (mail_attempts (iteration html_parser w (monitor_at cfg t)).1.1 ≤ 1)%nat
  ∧ (clock w - t ≤ 86400 →
     mail_attempts (iteration html_parser w (monitor_at cfg t)).1.1 = 0%nat
     ∧ (iteration html_parser w (monitor_at cfg t)).1.2 = monitor_at cfg t).
Proof.
  destruct (sent_of_quiet html_parser cfg w) as (_ & H2 & _ & H4).
  destruct (check_discount_cases html_parser cfg w) as [Hd|[Hm|Hi]].
  - pose proof (pass_mail_attempts html_parser cfg t w Hd) as Ha. split.
    + rewrite Ha. destruct (bool_decide _); auto.
    + intros Ht. rewrite (iteration_cooldown _ _ _ _ Hd Ht). cbn [fst snd].
      unfold mail_attempts in *. split; [|reflexivity].
      rewrite !count_app, !count_cons, H2, H4. reflexivity.
  - rewrite (iteration_miss _ _ _ _ Hm). cbn [fst snd].
    unfold mail_attempts in *. rewrite !count_app, !count_cons, H2, H4.
    split; [simpl; lia|]. intros _. split; reflexivity.
  - rewrite (iteration_check_interrupted _ _ _ _ Hi). cbn [fst snd].
    unfold mail_attempts in *. rewrite !count_app, !count_cons, H2.
    change (count is_mail []) with 0%nat.
    split; [simpl; lia|]. intros _. split; reflexivity.
Qed.

(** X12. A pass opens at most one SMTP session: a run over [n] cycles makes
    at most [n] attempts to send. *)
Theorem one_attempt_per_cycle cfg world : ∀ t,
  (mail_attempts (while_true html_parser world (monitor_at cfg t)).1.1
   ≤ length world)%nat.
Proof.
  induction world as [|w world IH]; intros t; [done|].
  rewrite while_true_cons.
  pose proof (proj1 (pass_attempts_le cfg t w)) as Hle.
  pose proof (pass_summary html_parser cfg t w 0) as Hp. cbn zeta in Hp.
  destruct (iteration html_parser w (monitor_at cfg t)) as [[tr s] r].
  cbn [fst snd] in *.
  assert (∃ t', s = monitor_at cfg t') as [t' ->]
    by (destruct Hp as [[-> _]|[-> _]]; eauto).
  specialize (IH t').
  destruct (while_true html_parser world (monitor_at cfg t')) as [[t2 s2] r2].
  cbn [fst snd] in *. unfold mail_attempts in *.
  destruct r as [[]|?]; cbn [fst snd length]; rewrite ?count_app; lia.
Qed.

(** X13. While the clock stays within 86400 of [last_sent], no SMTP session
    is opened and [last_sent] stays, whatever the pages hold. *)
Theorem cooldown_suppresses cfg t world :
  Forall (λ w, clock w - t ≤ 86400) world →
  mail_attempts (while_true html_parser world (monitor_at cfg t)).1.1 = 0%nat
  ∧ (while_true html_parser world (monitor_at cfg t)).1.2 = monitor_at cfg t.
Proof.
  induction 1 as [|w world Hw _ [IHa IHs]]; [done|].
  rewrite while_true_cons.
  destruct (proj2 (pass_attempts_le cfg t w) Hw) as [Ha Hs].
  destruct (iteration html_parser w (monitor_at cfg t)) as [[tr s] r].
  cbn [fst snd] in *. subst s.
  destruct (while_true html_parser world (monitor_at cfg t)) as [[t2 s2] r2].
  cbn [fst snd] in *. unfold mail_attempts in *.
  destruct r as [[]|?]; cbn [fst snd]; rewrite ?count_app, ?Ha, ?IHa;
    split; done.
Qed.

(** X11. After any run from a fresh monitor, the configuration, the
    keywords and the cooldown are those of [__init__], and [last_sent] is
    0 or the clock reading of a cycle of the run that detected a match and
    whose mail went out. *)
Theorem last_sent_is_a_delivery cfg world : ∀ t,
  ∃ t',
    (while_true html_parser world (monitor_at cfg t)).1.2 = monitor_at cfg t'
    ∧ (t' = t
       ∨ ∃ w, w ∈ world ∧ t' = clock w ∧ detects html_parser cfg w
              ∧ smtp w = Returns tt).
Proof.
  induction world as [|w world IH]; intros t; [by exists t; split; [|left]|].
  rewrite while_true_cons.
  pose proof (pass_summary html_parser cfg t w 0) as Hp. cbn zeta in Hp.
  destruct (iteration html_parser w (monitor_at cfg t)) as [[tr s] r].
  cbn [fst snd] in Hp.
  assert (∃ t1, s = monitor_at cfg t1
                ∧ (t1 = t ∨ (t1 = clock w ∧ detects html_parser cfg w
                             ∧ smtp w = Returns tt))) as (t1 & -> & H1).
  { destruct Hp as [[-> _]|(-> & _ & Hs & Hd & _)]; eauto 10. }
  assert (∀ tx, (tx = t ∨ (tx = clock w ∧ detects html_parser cfg w
                            ∧ smtp w = Returns tt)) →
                tx = t ∨ ∃ w', w' ∈ w :: world ∧ tx = clock w'
                               ∧ detects html_parser cfg w'
                               ∧ smtp w' = Returns tt) as Hlift.
  { intros tx [?|(? & ? & ?)]; [by left|right]. exists w.
    split; [apply elem_of_cons; by left | done]. }
  destruct r as [[]|e]; cbn [fst snd].
  - destruct (IH t1) as (t' & Hs' & H').
    destruct (while_true html_parser world (monitor_at cfg t1)) as [[t2 s2] r2].
    cbn [fst snd] in *. exists t'. split; [exact Hs'|].
    destruct H' as [->|(w' & Hin & ? & ? & ?)]; [by apply Hlift|].
    right. exists w'. split; [apply elem_of_cons; by right | done].
  - exists t1. split; [reflexivity | by apply Hlift].
  - exists t1. split; [reflexivity | by apply Hlift].
Qed.
End MoreLoop.

(** ** The definitions at work *)

Ltac by_running := vm_compute; reflexivity.

Lemma visible_plain s : visible_in [Text s] s.
Proof.
  exists (Text s). split; [by apply list_elem_of_singleton | constructor].
Defined.

(** C8, where the code falls short of it.  The configured interval is -1,
    which [validate] lets through; the page has no keyword; [time.sleep]
    refuses the negative length, the handler logs the error and sleeps 300
    seconds, and the operator interrupts that sleep.  The interrupt is
    raised inside the handler, where no clause of the [try] catches it:
    [run] is left by the exception and no shutdown line is logged. *)
Theorem interrupt_in_recovery_escapes :
  validate (with_interval (-1) shop) = []
  ∧ run sample_parser [interrupted_recovery "Welcome" 1700000000]
      (GregoryMonitor_init (with_interval (-1) shop))
    = ([Log INFO "启动折扣监控服务";
        HttpGet "https://shop.example/";
        Log INFO "未检测到折扣信息";
        Sleep (-1);
        Log ERROR "主循环异常：sleep length must be non-negative";
        Sleep 300],
       GregoryMonitor_init (with_interval (-1) shop),
       Raises KeyboardInterrupt).
Proof. split; by_running. Qed.

(** C1 as stated fails: two cycles detect a match 1800 seconds apart, both
    SMTP sessions fail, and no mail is sent, after two attempts. *)
Lemma two_matches_no_mail :
  detects sample_parser shop (no_smtp "sale" 1700000000)
  ∧ detects sample_parser shop (no_smtp "sale" 1700001800)
  ∧ 1700001800 - 1700000000 < 86400
  ∧ mails_sent
      (run sample_parser
         [no_smtp "sale" 1700000000; no_smtp "sale" 1700001800]
         (GregoryMonitor_init shop)).1.1 = 0%nat
  ∧ mail_attempts
      (run sample_parser
         [no_smtp "sale" 1700000000; no_smtp "sale" 1700001800]
         (GregoryMonitor_init shop)).1.1 = 2%nat.
Proof. repeat split; by_running. Qed.

(** C7 as stated fails: on two pages with different keywords
    [check_discount] returns the same value. *)
Lemma result_hides_keywords :
  (check_discount sample_parser (calm "sale" 0) (GregoryMonitor_init shop)).2
  = (check_discount sample_parser (calm "discount" 0) (GregoryMonitor_init shop)).2
  ∧ found_keywords (keywords (GregoryMonitor_init shop)) (page_text [Text "sale"])
    ≠ found_keywords (keywords (GregoryMonitor_init shop))
        (page_text [Text "discount"]).
Proof. split; [by_running | by vm_compute]. Qed.

Lemma cooldown_invariant_witness :
  mails_sent
    (run sample_parser
       [calm "Welcome" 1699990000; calm "sale" 1700000000;
        calm "Welcome" 1700001800; calm "sale now" 1700003600]
       (GregoryMonitor_init shop)).1.1 = 1%nat
  ∧ mails_sent
      (run sample_parser
         [calm "sale" 1700000000; calm "sale now" 1700090000]
         (GregoryMonitor_init shop)).1.1 = 2%nat
  ∧ 1700090000 - 1700000000 > 86400.
Proof.
  pose proof (cooldown_invariant sample_parser shop) as (Hfar & _ & Htwo).
  split; [|split].
  - apply (Htwo [calm "Welcome" 1699990000] (calm "sale" 1700000000)
             [calm "Welcome" 1700001800] (calm "sale now" 1700003600) []);
      repeat constructor; by_running.
  - apply (Htwo [] (calm "sale" 1700000000) [] (calm "sale now" 1700090000) []);
      repeat constructor; by_running.
  - apply (Hfar [calm "sale" 1700000000; calm "sale now" 1700090000] 0%nat 1%nat);
      [lia | by_running | by_running].
Defined.

Lemma failed_send_is_retried_witness :
  (iteration sample_parser (no_smtp "sale" 1700000000) (monitor_at shop 0)).1.2
  = monitor_at shop 0
  ∧ mail_attempts
      (while_true sample_parser
         ([no_smtp "sale" 1700000000; calm "Welcome" 1700001800]
            ++ [calm "sale" 1700003600])
         (monitor_at shop 0)).1.1 = 2%nat.
Proof.
  assert (detects sample_parser shop (no_smtp "sale" 1700000000)) as Hd
    by by_running.
  assert (clock (no_smtp "sale" 1700000000) - 0 > 86400) as Ht by by_running.
  assert (SMTPException "authentication failed" ≠ KeyboardInterrupt) as He
    by discriminate.
  destruct (failed_send_is_retried sample_parser shop 0
              (no_smtp "sale" 1700000000)
              (SMTPException "authentication failed") Hd Ht eq_refl He)
    as (Hit & Hretry & _).
  split.
  - by rewrite Hit.
  - apply (Hretry [calm "Welcome" 1700001800] (calm "sale" 1700003600)).
    + by_running.
    + constructor; [split; by_running | constructor].
    + by_running.
    + simpl. lia.
Defined.

Lemma first_match_notifies_witness :
  mail_attempts
    (iteration sample_parser (calm "sale" 1700000000)
       (GregoryMonitor_init shop)).1.1 = 1%nat
  ∧ mail_attempts
      (iteration sample_parser (calm "sale" 3600)
         (GregoryMonitor_init shop)).1.1 ≠ 1%nat.
Proof.
  split.
  - apply (first_match_notifies sample_parser shop (calm "sale" 1700000000));
      by_running.
  - intros H.
    apply (first_match_notifies sample_parser shop (calm "sale" 3600)) in H;
      [done | by_running].
Defined.

Lemma zero_is_missing_witness :
  validate (with_interval 0 shop) = ["配置项 check_interval 不能为空"]
  ∧ start sample_parser (Returns tt) (with_interval 0 shop)
      [calm "sale" 1700000000]
    = ([Print "配置项 check_interval 不能为空"], Returns Returned).
Proof.
  destruct (zero_is_missing sample_parser (Returns tt) (with_interval 0 shop)
              [calm "sale" 1700000000] (or_introl eq_refl))
    as (_ & _ & _ & Hstart).
  split; [by_running|]. rewrite Hstart. by_running.
Defined.

Lemma check_discount_result_witness :
  ∃ found,
    (∀ kw, kw ∈ found ↔
           kw ∈ keywords (monitor_at shop 0)
           ∧ Str.contains kw (page_text [Text "50% OFF everything"]) = true)
    ∧ NoDup found
    ∧ check_discount sample_parser (calm "50% OFF everything" 1700000000)
        (monitor_at shop 0)
      = (HttpGet (website_url shop) :: log_found found,
         monitor_at shop 0, Returns (bool_decide (found ≠ []))).
Proof.
  apply (check_discount_result sample_parser shop 0
           (calm "50% OFF everything" 1700000000) "50% OFF everything");
    by_running.
Defined.

Lemma off_inside_a_word_witness :
  ∃ found,
    "off" ∈ found
    ∧ check_discount sample_parser (calm "Fresh Coffee daily" 1700000000)
        (monitor_at shop 0)
      = ([HttpGet (website_url shop);
          Log INFO ("发现折扣关键词：" +:+ Str.join ", " found)],
         monitor_at shop 0, Returns true).
Proof.
  apply (off_inside_a_word sample_parser shop 0
           (calm "Fresh Coffee daily" 1700000000) "Fresh Coffee daily"
           [Text "Fresh Coffee daily"] "Fresh Coffee daily" "coffee");
    [by_running | by_running | apply visible_plain | by_running | by_running].
Defined.


(** C5 as stated fails.  With an interval of -1, which [validate] lets
    through, the pass after a failed request does not sleep for the
    configured interval: [time.sleep] refuses it and the pass sleeps 300
    seconds in the handler. *)
Lemma fault_with_negative_interval :
  validate (with_interval (-1) shop) = []
  ∧ iteration sample_parser (offline 1700000000)
      (GregoryMonitor_init (with_interval (-1) shop))
    = ([HttpGet "https://shop.example/";
        Log ERROR "网络请求异常：connection refused";
        Log INFO "未检测到折扣信息";
        Sleep (-1);
        Log ERROR "主循环异常：sleep length must be non-negative";
        Sleep 300],
       GregoryMonitor_init (with_interval (-1) shop), Returns Again).
Proof. split; by_running. Qed.

(** C6 as stated fails.  With [CHECK_INTERVAL] set to the empty text a
    required field is empty, yet nothing is printed: [int] refuses the
    text and [main] is left by the exception.  With [CHECK_INTERVAL] set
    to [0] every variable holds a text, yet [validate] reports the field
    and the loop is not started. *)
Lemma empty_interval_stops_main :
  main sample_parser decimal ∅ (<["CHECK_INTERVAL" := ""]> environ_full)
    (Returns tt) [calm "sale" 1700000000]
  = ([], Raises (OtherException "invalid literal for int() with base 10: ''"))
  ∧ from_env decimal ∅ (<["CHECK_INTERVAL" := "0"]> environ_full)
    = Returns (with_interval 0 shop)
  ∧ main sample_parser decimal ∅ (<["CHECK_INTERVAL" := "0"]> environ_full)
      (Returns tt) [calm "sale" 1700000000]
    = ([Print "配置项 check_interval 不能为空"], Returns Returned).
Proof. repeat split; by_running. Qed.


Lemma fetch_fault_then_sleep_witness :
  iteration sample_parser (offline 1700000000) (monitor_at shop 0)
  = ([HttpGet (website_url shop);
      Log ERROR "网络请求异常：connection refused";
      Log INFO "未检测到折扣信息"; Sleep 1800],
     monitor_at shop 0, Returns Again)
  ∧ check_discount sample_parser (calm "<![x]> sale" 1700000000)
      (monitor_at shop 0)
    = ([HttpGet (website_url shop);
        Log ERROR
          "检查过程中发生异常：unknown status keyword 'x' in marked section"],
       monitor_at shop 0, Returns false).
Proof.
  split.
  - destruct (fetch_fault_then_sleep sample_parser shop 0 (offline 1700000000)
                (RequestException "connection refused"))
      as (_ & _ & Hgood & _); [discriminate | by left |].
    destruct Hgood as [Hit _]; [simpl; lia | reflexivity |]. exact Hit.
  - destruct (fetch_fault_then_sleep sample_parser shop 0
                (calm "<![x]> sale" 1700000000)
                (OtherException "unknown status keyword 'x' in marked section"))
      as (_ & Hc & _); [discriminate | right; exists "<![x]> sale"; split;
                                       [reflexivity | by_running] |].
    exact Hc.
Defined.

Lemma startup_validation_witness :
  main sample_parser decimal ∅ environ_no_server (Returns tt)
    [calm "sale" 1700000000]
  = ([Print "配置项 smtp_server 不能为空"], Returns Returned)
  ∧ (∃ tr,
       (main sample_parser decimal ∅ environ_full (Returns tt)
          [calm "sale" 1700000000]).1
       = Log INFO "启动折扣监控服务" :: HttpGet "https://shop.example/" :: tr)
  ∧ main sample_parser decimal ∅ environ_full
      (Raises (OtherException "Permission denied: 'logs'"))
      [calm "sale" 1700000000]
    = ([], Raises (OtherException "Permission denied: 'logs'")).
Proof.
  split; [|split].
  - destruct (startup_validation sample_parser decimal ∅ environ_no_server
                (Returns tt) shop_no_server [calm "sale" 1700000000])
      as (_ & Hrefused & _); [by_running|].
    rewrite Hrefused; [by_running | discriminate].
  - destruct (startup_validation sample_parser decimal ∅ environ_full
                (Returns tt) shop [calm "sale" 1700000000])
      as (_ & _ & Haccepted); [by_running|].
    destruct Haccepted as (_ & _ & Hrun); [by_running|].
    destruct (Hrun tt eq_refl) as [_ Hfirst].
    exact (Hfirst (calm "sale" 1700000000) [] eq_refl).
  - destruct (startup_validation sample_parser decimal ∅ environ_full
                (Raises (OtherException "Permission denied: 'logs'")) shop
                [calm "sale" 1700000000])
      as (_ & _ & Haccepted); [by_running|].
    destruct Haccepted as (_ & Hlogs & _); [by_running|].
    exact (Hlogs _ eq_refl).
Defined.

(** ** The further properties at work *)

Lemma send_email_result_witness :
  send_email (no_smtp "sale" 1700000000) (monitor_at shop 0)
  = ([Mail (receiver shop) false; Log ERROR "SMTP错误：authentication failed"],
     monitor_at shop 0, Returns false).
Proof.
  apply (proj1 (proj2 (proj2 (proj2
           (send_email_result (no_smtp "sale" 1700000000) (monitor_at shop 0)))))
           (SMTPException "authentication failed"));
    [reflexivity | discriminate].
Defined.

Lemma sent_then_sleep_fails_witness :
  iteration sample_parser (bad_nap "sale" 1700000000) (monitor_at shop 0)
  = (check_trace sample_parser shop (bad_nap "sale" 1700000000)
       ++ [Clock 1700000000; Mail (receiver shop) true;
           Log INFO "邮件发送成功"; Sleep 1800;
           Log ERROR "主循环异常：sleep failed"; Sleep 300],
     monitor_at shop 1700000000, Returns Again).
Proof.
  apply (sent_then_sleep_fails sample_parser shop 0
           (bad_nap "sale" 1700000000) (OtherException "sleep failed"));
    try by_running; try discriminate.
Defined.

Lemma interrupt_in_try_breaks_witness :
  run sample_parser [interrupted_fetch 1700000000; calm "sale" 1700001800]
    (monitor_at shop 0)
  = ([Log INFO "启动折扣监控服务"; HttpGet (website_url shop);
      Log INFO "用户中断监控"],
     monitor_at shop 0, Returns Returned).
Proof.
  apply (proj1 (interrupt_in_try_breaks sample_parser shop 0
                  (interrupted_fetch 1700000000)) eq_refl).
Defined.

Lemma negative_interval_witness :
  cycle_end (calm "Welcome" 1700000000) (monitor_at (with_interval (-1) shop) 0)
  = ([Sleep (-1); Log ERROR "主循环异常：sleep length must be non-negative";
      Sleep 300],
     monitor_at (with_interval (-1) shop) 0, Returns Again).
Proof.
  apply (proj2 (negative_interval (with_interval (-1) shop) 0
                  (calm "Welcome" 1700000000) eq_refl)).
Defined.

Lemma validate_passes_iff_witness : validate shop = [].
Proof.
  apply (proj2 (validate_passes_iff shop)). repeat split; discriminate.
Defined.

Lemma capital_keyword_never_found_witness :
  "Sale" ∉ found_keywords {["Sale"]} (page_text [Text "Sale now"]).
Proof.
  apply capital_keyword_never_found. by_running.
Defined.

Lemma cooldown_suppresses_witness :
  mail_attempts
    (while_true sample_parser [calm "sale" 1700000100; calm "sale" 1700001900]
       (monitor_at shop 1700000000)).1.1 = 0%nat.
Proof.
  apply (cooldown_suppresses sample_parser shop 1700000000).
  repeat constructor; simpl; lia.
Defined.


Lemma bad_number_stops_main_witness :
  main sample_parser decimal ∅ (<["SMTP_PORT" := "smtp"]> environ_full)
    (Returns tt) [calm "sale" 1700000000]
  = ([], Raises (OtherException
                   "invalid literal for int() with base 10: 'smtp'")).
Proof.
  apply (bad_number_stops_main sample_parser decimal _ _ _ _ "smtp");
    [by_running|].
  right. split; [|by_running]. right. exists "1800", 1800.
  split; by_running.
Defined.

